(** * estirador: entity store and account service

    A shallow embedding of
    - [src/internals/databases/simple-entity/simple-entity.repository.ts]
      (the generic [SimpleEntityRepository]: findOne, find, create, save,
      remove), and
    - the account service [UsersService] (doCredentialsMatch, verifyUser,
      resendSignupVerificationToken, signup).

    Tables are finite maps keyed by the primary key; JavaScript objects that
    the code handles key by key are finite maps from property names to
    values; effects are threaded through a state monad. *)

From stdpp Require Import gmap strings list fin_maps pretty.
From Stdlib Require Import ZArith Lia.

Local Open Scope Z_scope.
Local Open Scope string_scope.

(** ** Effects: state plus thrown errors *)

Module Eff.

Inductive Error : Type :=
  | JsError          (* [throw new Error()] *)
  | QueryFailed.     (* raised by the persistence layer *)

Inductive Res (A : Type) : Type :=
  | Ok (a : A)
  | Throw (e : Error).
Arguments Ok {A} a.
Arguments Throw {A} e.

Definition M (S A : Type) : Type := S → Res A * S.

Definition ret {S A} (a : A) : M S A := λ s, (Ok a, s).

Definition bind {S A B} (m : M S A) (k : A → M S B) : M S B :=
  λ s, match m s with
       | (Ok a, s') => k a s'
       | (Throw e, s') => (Throw e, s')
       end.

Definition throw {S A} (e : Error) : M S A := λ s, (Throw e, s).
Definition gets {S A} (f : S → A) : M S A := λ s, (Ok (f s), s).
Definition modify {S} (f : S → S) : M S unit := λ s, (Ok tt, f s).

End Eff.
Import Eff.

Declare Scope eff_scope.
Delimit Scope eff_scope with eff.
Notation "'let*' x ':=' m 'in' k" := (bind m (λ x, k))
  (at level 10, x pattern, m at level 100, k at level 200) : eff_scope.
Notation "m ';;;' k" := (bind m (λ _, k))
  (at level 100, k at level 200, right associativity) : eff_scope.

(** ** JavaScript values, objects and classes *)

Module Js.

Inductive val : Type :=
  | VUndefined
  | VNull
  | VBool (b : bool)
  | VNum (n : Z)
  | VStr (s : string)
  | VDate (ms : Z).

#[global] Instance val_eq_dec : EqDecision val.
Proof. solve_decision. Defined.

(** A class: its name, the names of the classes it extends, and the
    properties its constructor initialises. *)
Record Class : Type := {
  class_name : string;
  superclasses : list string;
  initializers : gmap string val;
}.

(** An object: its prototype chain (by class name) and its own
    enumerable properties. *)
Record obj : Type := {
  proto_chain : list string;
  own : gmap string val;
}.

(** [new C()] *)
Definition new (C : Class) : obj :=
  {| proto_chain := class_name C :: superclasses C;
     own := initializers C |}.

(** [o instanceof C] *)
Definition instanceof (o : obj) (C : Class) : bool :=
  bool_decide (class_name C ∈ proto_chain o).

(** [o[k]] *)
Definition get (p : gmap string val) (k : string) : val :=
  default VUndefined (p !! k).

(** The prototype chain that assigning [v] to [__proto__] gives an object:
    null leaves it without prototype, an object (of the values here, a
    Date) becomes the prototype, and a primitive is ignored. *)
Definition as_prototype (v : val) : option (list string) :=
  match v with
  | VNull => Some []
  | VDate _ => Some ["Date"]
  | VUndefined | VBool _ | VNum _ | VStr _ => None
  end.

(** Whether [o.__proto__ = v] runs the setter of [Object.prototype]: the
    object inherits it (every object with a prototype does) and has no own
    property of that name. *)
Definition inherits_proto_setter (o : obj) : bool :=
  bool_decide (own o !! "__proto__" = None)
  && negb (bool_decide (proto_chain o = [])).

(** [o[k] = v].  For the key [__proto__] the inherited setter runs instead
    of an own property being created. *)
Definition set_prop (o : obj) (k : string) (v : val) : obj :=
  if bool_decide (k = "__proto__") && inherits_proto_setter o
  then match as_prototype v with
       | Some chain => {| proto_chain := chain; own := own o |}
       | None => o
       end
  else {| proto_chain := proto_chain o; own := <[k := v]> (own o) |}.

(** [Object.keys(o)] *)
Definition object_keys (p : gmap string val) : list string :=
  (map_to_list p).*1.

End Js.
Import Js.

(** ** The persistence layer (TypeORM) over one table

    The table of one entity type is a finite map from the primary key to
    the row's columns.  A row read back from the table always carries its
    primary key in the column [id]. *)

Module TypeOrm.

Record EntityMetadata : Type := {
  target : Class;                      (* the entity class *)
  deleteDateColumn : option string;    (* the deletion timestamp column *)
}.

(** What a repository runs against: the table of its entity type, the
    clock, and how many identifiers have been generated. *)
Record Db : Type := {
  table : gmap string (gmap string val);
  clock : Z;                           (* current time, in milliseconds *)
  issued : nat;                        (* identifiers generated so far *)
}.

Definition set_table (f : gmap string (gmap string val) →
                          gmap string (gmap string val)) (db : Db) : Db :=
  {| table := f (table db); clock := clock db; issued := issued db |}.

Definition bump_issued (db : Db) : Db :=
  {| table := table db; clock := clock db; issued := S (issued db) |}.

(** *** Queries *)

(** One constraint of a where object: a plain value, a referenced entity
    (which stands for its identifier), or a find operator. *)
Inductive Cond : Type :=
  | CValue (v : val)
  | CEntity (e : obj)
  | COperator (f : val → bool).

Definition WhereObject : Type := list (string * Cond).

Inductive Where : Type :=
  | WObject (w : WhereObject)
  | WArray (ws : list WhereObject).

Inductive Direction : Type := ASC | DESC.

Definition Order : Type := list (string * Direction).

Record FindOneOptions : Type := {
  fo_where : Where;
  fo_withDeleted : bool;
  fo_order : Order;
}.

Record FindOptions : Type := {
  q_where : option Where;
  q_withDeleted : bool;
  q_order : Order;
  q_skip : nat;
}.

(** ORDER BY is carried out by the database: all that is used of it is
    that it rearranges the selected rows.  How it places rows that the
    order given does not tell apart is left open, and no property below
    compares the order of two queries. *)
Class RowOrdering : Type := {
  order_rows : Order → list (gmap string val) → list (gmap string val);
  order_rows_perm : ∀ o l, order_rows o l ≡ₚ l;
}.

Definition column (row : gmap string val) (k : string) : val :=
  default VNull (row !! k).

Definition cond_holds (c : Cond) (v : val) : bool :=
  match c with
  | CValue x => bool_decide (v = x)
  | CEntity e => bool_decide (v = get (own e) "id")
  | COperator f => f v
  end.

(** A where object is the conjunction of its constraints; an array of
    where objects is their disjunction. *)
Definition matches_object (w : WhereObject) (row : gmap string val) : bool :=
  forallb (λ kc, cond_holds kc.2 (column row kc.1)) w.

Definition matches (w : Where) (row : gmap string val) : bool :=
  match w with
  | WObject o => matches_object o row
  | WArray os => existsb (λ o, matches_object o row) os
  end.

(** The where object [{ id: i }]. *)
Definition by_id (i : string) : Where := WObject [("id", CValue (VStr i))].

Definition matches_opt (w : option Where) (row : gmap string val) : bool :=
  match w with
  | Some w => matches w row
  | None => true
  end.

Definition is_null (v : val) : bool :=
  match v with
  | VNull | VUndefined => true
  | _ => false
  end.

(** Soft-deleted rows are left out unless [withDeleted] is set. *)
Definition visible (md : EntityMetadata) (wd : bool)
    (row : gmap string val) : bool :=
  match deleteDateColumn md with
  | None => true
  | Some c => wd || is_null (column row c)
  end.

Definition materialize (kv : string * gmap string val) : gmap string val :=
  <["id" := VStr kv.1]> kv.2.

Definition all_rows (db : Db) : list (gmap string val) :=
  materialize <$> map_to_list (table db).

Definition selected (md : EntityMetadata) (w : option Where) (wd : bool)
    (db : Db) : list (gmap string val) :=
  filter (λ row, visible md wd row && matches_opt w row) (all_rows db).

(** An entity loaded from a row: an instance of the target class with the
    row's columns assigned. *)
Definition hydrate (md : EntityMetadata) (row : gmap string val) : obj :=
  {| proto_chain := proto_chain (new (target md));
     own := row ∪ initializers (target md) |}.

Section Queries.
Context `{RowOrdering}.

(** [repository.findOne(query)] *)
Definition orm_findOne (md : EntityMetadata) (q : FindOneOptions)
    (db : Db) : option obj :=
  hydrate md <$>
    head (order_rows (fo_order q)
            (selected md (Some (fo_where q)) (fo_withDeleted q) db)).

(** [repository.findAndCount({...query, take})] *)
Definition orm_findAndCount (md : EntityMetadata) (q : FindOptions)
    (take_n : nat) (db : Db) : list obj * nat :=
  let found := order_rows (q_order q)
                 (selected md (q_where q) (q_withDeleted q) db) in
  (hydrate md <$> take take_n (drop (q_skip q) found), length found).
End Queries.

(** *** Writes *)

Definition entity_id (e : obj) : option string :=
  match own e !! "id" with
  | Some (VStr i) => Some i
  | _ => None
  end.

(** [repository.save(entity)]: insert, or update the row that has the
    entity's identifier with the entity's properties.  The table has no
    schema here: every own property of the entity is taken for a mapped
    column that holds a value. *)
Definition orm_save (e : obj) : M Db unit :=
  match entity_id e with
  | Some i =>
      modify (set_table (λ t, <[i := own e ∪ default ∅ (t !! i)]> t))
  | None => throw QueryFailed
  end.

(** [repository.softRemove(entity)]: stamp the deletion column. *)
Definition orm_softRemove (md : EntityMetadata) (e : obj) : M Db unit :=
  match entity_id e, deleteDateColumn md with
  | Some i, Some c =>
      λ db, modify (set_table (alter (<[c := VDate (clock db)]>) i)) db
  | _, _ => throw QueryFailed
  end.

(** [repository.remove(entity)]: delete the row. *)
Definition orm_remove (e : obj) : M Db unit :=
  match entity_id e with
  | Some i => modify (set_table (delete i))
  | None => throw QueryFailed
  end.

End TypeOrm.
Import TypeOrm.

(** ** simple-entity.repository.ts

    The audit context that create, save and remove accept is not used by
    their bodies.  The optional manager only selects through which
    connection the repository of the same target is reached; there is one
    table per target here, so both are left out. *)

Module SimpleEntityRepository.

Record Page : Type := {
  limit : nat;
  total : nat;
  rows : list obj;
}.

Section Repository.
Context `{RowOrdering}.

(** [generateUniqueUUID()] is an import of the repository; its n-th
    result is taken as a parameter. *)
Variable generateUniqueUUID : nat → string.

(** [this.repository.metadata], with [this.repository.target]. *)
Variable md : EntityMetadata.

Definition next_uuid : M Db string :=
  λ db, (Ok (generateUniqueUUID (issued db)), bump_issued db).

Definition findOne (query : FindOneOptions) : M Db (option obj) :=
  gets (orm_findOne md query).

Definition find (query : FindOptions) : M Db Page :=
  (let limit := 50%nat in
   let* results := gets (orm_findAndCount md query limit) in
   ret {| limit := limit; total := results.2; rows := results.1 |})%eff.

Definition create (entityLikeObject : gmap string val) : M Db obj :=
  (let _entityLikeObject := entityLikeObject in
   let* uuid := next_uuid in
   let _entityLikeObject := <["id" := VStr uuid]> _entityLikeObject in
   let EntityClass := target md in
   let entity :=
     foldl (λ entity key, set_prop entity key (get _entityLikeObject key))
           (new EntityClass) (object_keys _entityLikeObject) in
   orm_save entity ;;;
   ret entity)%eff.

Definition save (entity : obj) : M Db unit :=
  let EntityClass := target md in
  if negb (instanceof entity EntityClass) then throw JsError
  else orm_save entity.

Definition remove (entity : obj) : M Db unit :=
  let EntityClass := target md in
  if negb (instanceof entity EntityClass) then throw JsError
  else match deleteDateColumn md with
       | Some _ => orm_softRemove md entity
       | None => orm_remove entity
       end.

(** The row with identifier [i] comes back from some [findOne] or
    [find] whose [withDeleted] option is [wd]. *)
Definition retrievable (i : string) (wd : bool) (db : Db) : Prop :=
  (∃ q e, fo_withDeleted q = wd
          ∧ findOne q db = (Ok (Some e), db)
          ∧ entity_id e = Some i)
  ∨ (∃ q page e, q_withDeleted q = wd
                 ∧ find q db = (Ok page, db)
                 ∧ e ∈ rows page
                 ∧ entity_id e = Some i).
End Repository.

End SimpleEntityRepository.

(** ** The account service

    [UsersService] is under [src/]; the two repositories it obtains from
    the transaction's manager, the entities, the request DTO, the role
    enumeration and the email service are not.  They are modelled from the
    specification (sections 3, 4 and 6); bcrypt, the identifier generator
    and the time-to-live constant are parameters. *)

Module Accounts.

(** Modelled from the spec: the role enumeration of [src/auth/roles]
    ("enumerated: end-user, and others not detailed here"). *)
Inductive Role : Type :=
  | EndUser
  | OtherRole (name : string).

Inductive SignupResult : Type :=
  | Created
  | AlreadyCreated
  | AwaitingVerification.

(** ['ok' | 'not-found'] *)
Inductive OkOrNotFound : Type := ok | not_found.

(** A persisted entity: its identifier and its columns. *)
Record Entity (C : Type) : Type := {
  id : string;
  columns : C;
}.
Arguments id {C} _.
Arguments columns {C} _.

Record Email : Type := {
  to : string;
  body : string;
}.

(** The collaborators that are imported or injected. *)
Class Collaborators : Type := {
  bcrypt_hash : string → string → string;   (* bcrypt.hash(data, salt) *)
  bcrypt_genSalt : nat → string;            (* n-th result of bcrypt.genSalt() *)
  generateUniqueUUID : nat → string;        (* n-th identifier generated *)
  USERS_SIGNUP_VERIFICATION_TTL : Z;        (* users.constants *)
}.

Section Model.
Context {Profile : Type}.

(** Modelled from the spec: the signup payload of [users.dto]; it holds
    the email, the plaintext password and the remaining fields. *)
Record UserSignupRequestDTO : Type := {
  dto_email : string;
  dto_password : string;
  dto_profile : Profile;
}.

(** Modelled from the spec: the columns of [user.entity] ("email,
    password hash, password salt, verification flag, role"). *)
Record User : Type := {
  email : string;
  passwordHash : string;
  passwordSalt : string;
  isVerified : bool;
  role : Role;
  profile : Profile;
}.

(** Modelled from the spec: the columns of
    [signup-verification-token.entity] ("owning-account reference,
    expiry"). *)
Record SignupVerificationToken : Type := {
  user : string;
  expires : Z;
}.

(** A token loaded together with its owning account. *)
Record TokenWithUser : Type := {
  token : Entity SignupVerificationToken;
  token_user : Entity User;
}.

(** What [select: ['passwordHash', 'passwordSalt']] loads. *)
Record UserSecrets : Type := {
  sel_passwordHash : string;
  sel_passwordSalt : string;
}.

(** The payload [usersRepository.create] is called with. *)
Record UserCreationAttributes : Type := {
  new_email : string;
  new_profile : Profile;
  new_passwordHash : string;
  new_passwordSalt : string;
  new_role : Role;
}.

Inductive CredentialsResult : Type :=
  | Match (user : UserSecrets)     (* { result: 'match', user } *)
  | DontMatch.                     (* { result: 'dont-match' } *)

Record World : Type := {
  users : gmap string User;
  tokens : gmap string SignupVerificationToken;
  outbox : list Email;             (* emails handed to the email service *)
  now : Z;                         (* current time, in milliseconds *)
  drawn : nat;                     (* random draws made so far *)
}.

Definition set_users (f : gmap string User → gmap string User)
    (w : World) : World :=
  {| users := f (users w); tokens := tokens w; outbox := outbox w;
     now := now w; drawn := drawn w |}.

Definition set_tokens (f : gmap string SignupVerificationToken →
                           gmap string SignupVerificationToken)
    (w : World) : World :=
  {| users := users w; tokens := f (tokens w); outbox := outbox w;
     now := now w; drawn := drawn w |}.

Definition push_email (e : Email) (w : World) : World :=
  {| users := users w; tokens := tokens w; outbox := outbox w ++ [e];
     now := now w; drawn := drawn w |}.

Definition draw {A} (oracle : nat → A) : M World A :=
  λ w, (Ok (oracle (drawn w)),
        {| users := users w; tokens := tokens w; outbox := outbox w;
           now := now w; drawn := S (drawn w) |}).

Definition entity {C} (kv : string * C) : Entity C :=
  {| id := kv.1; columns := kv.2 |}.

Definition set_isVerified (b : bool) (u : Entity User) : Entity User :=
  {| id := id u;
     columns := {| email := email (columns u);
                   passwordHash := passwordHash (columns u);
                   passwordSalt := passwordSalt (columns u);
                   isVerified := b;
                   role := role (columns u);
                   profile := profile (columns u) |} |}.
End Model.
Arguments UserSignupRequestDTO : clear implicits.
Arguments User : clear implicits.
Arguments UserCreationAttributes : clear implicits.
Arguments World : clear implicits.
Arguments TokenWithUser : clear implicits.

End Accounts.
Import Accounts.

(** The service calls [usersRepository.create(auditContext, payload)] and
    [usersRepository.save(auditContext, user)], audit context first, and
    [findOne] with a [select] option.  These are not the signatures of
    [SimpleEntityRepository] above, which takes the entity first and knows
    no [select]: [UsersRepository] is a class of its own.  The audit
    context has no part in what is stored and is left out. *)

Module UsersRepository.
Section Repository.
Context {Profile : Type} `{Collaborators}.

(** The where objects the service queries accounts with: [{ email }]
    and [{ email, isVerified }]. *)
Record Where : Type := {
  where_email : option string;
  where_isVerified : option bool;
}.

Definition matches (q : Where) (u : User Profile) : bool :=
  from_option (String.eqb (email u)) true (where_email q)
  && from_option (Bool.eqb (isVerified u)) true (where_isVerified q).

(** Modelled from the spec: [findOne(predicate)], "no error on zero or
    one match; returns absence vs the entity". *)
Definition findOne (q : Where) : M (World Profile) (option (Entity (User Profile))) :=
  gets (λ w, entity <$>
               List.find (λ kv, matches q kv.2) (map_to_list (users w))).

Definition select_secrets (u : Entity (User Profile)) : UserSecrets :=
  {| sel_passwordHash := passwordHash (columns u);
     sel_passwordSalt := passwordSalt (columns u) |}.

(** Modelled from the spec: [findOne] with
    [select: ['passwordHash', 'passwordSalt']], "fetching only the password
    hash and salt fields".  The service casts what is loaded to
    [NonNullableFields<User, 'passwordHash' | 'passwordSalt'>]: both
    fields are taken as present. *)
Definition findOne_secrets (q : Where) : M (World Profile) (option UserSecrets) :=
  (let* found := findOne q in
   ret (select_secrets <$> found))%eff.

(** Modelled from the spec: [create(payload)], "generates a new
    collision-resistant identifier, materializes a live entity
    instance with that id and the payload fields applied, persists it,
    and returns the materialized entity"; the verification flag
    "defaults false". *)
Definition create (payload : UserCreationAttributes Profile)
    : M (World Profile) (Entity (User Profile)) :=
  (let* uuid := draw generateUniqueUUID in
   let created :=
     {| id := uuid;
        columns := {| email := new_email payload;
                      passwordHash := new_passwordHash payload;
                      passwordSalt := new_passwordSalt payload;
                      isVerified := false;
                      role := new_role payload;
                      profile := new_profile payload |} |} in
   modify (set_users (<[id created := columns created]>)) ;;;
   ret created)%eff.

(** Modelled from the spec: [save(entity)], "persists its current field
    values (a full upsert-by-identifier semantics)". *)
Definition save (u : Entity (User Profile)) : M (World Profile) unit :=
  modify (set_users (<[id u := columns u]>)).
End Repository.
End UsersRepository.

Module SignupVerificationTokensRepository.
Section Repository.
Context {Profile : Type} `{Collaborators}.

(** Modelled from the spec: [findTokenById], "look up the token by id
    (joins to its owning account)". *)
Definition findTokenById (tokenId : string)
    : M (World Profile) (option (TokenWithUser Profile)) :=
  gets (λ w,
    match tokens w !! tokenId with
    | Some t =>
        match users w !! user t with
        | Some u =>
            Some {| token := {| id := tokenId; columns := t |};
                    token_user := {| id := user t; columns := u |} |}
        | None => None
        end
    | None => None
    end).

(** A token is live until it expires. *)
Definition is_live (time : Z) (t : SignupVerificationToken) : bool :=
  (time <? expires t)%Z.

(** Modelled from the spec: [findTokenByUser], the account's "live
    token", if it has one. *)
Definition findTokenByUser (u : Entity (User Profile))
    : M (World Profile) (option (Entity SignupVerificationToken)) :=
  gets (λ w, entity <$>
               List.find (λ kv, String.eqb (user kv.2) (id u)
                                && is_live (now w) kv.2)
                         (map_to_list (tokens w))).

(** Modelled from the spec: [deleteFromUser], "delete all verification
    tokens belonging to that account". *)
Definition deleteFromUser (u : Entity (User Profile)) : M (World Profile) unit :=
  modify (set_tokens (filter (λ kv, user kv.2 ≠ id u))).

(** Modelled from the spec: [createToken(user, ttl)], a fresh token of
    the account with "expiry (time-to-live from creation)". *)
Definition createToken (u : Entity (User Profile)) (ttl : Z)
    : M (World Profile) (Entity SignupVerificationToken) :=
  (let* uuid := draw generateUniqueUUID in
   let* time := gets now in
   let created :=
     {| id := uuid;
        columns := {| user := id u; expires := (time + ttl)%Z |} |} in
   modify (set_tokens (<[id created := columns created]>)) ;;;
   ret created)%eff.
End Repository.
End SignupVerificationTokensRepository.

Module EmailService.
Section Service.
Context {Profile : Type}.

(** Modelled from the spec: [sendEmail({to, body})], "assumed to
    reliably send an HTML body to an address". *)
Definition sendEmail (e : Email) : M (World Profile) unit :=
  modify (push_email e).
End Service.
End EmailService.

Module UsersService.
Import UsersRepository SignupVerificationTokensRepository EmailService.

Definition newline : string := String (Ascii.ascii_of_nat 10) EmptyString.
Definition dquote : string := String (Ascii.ascii_of_nat 34) EmptyString.

(** The template literal of [sendVerificationLinkEmail]. *)
Definition verification_body (verificationLink : string) : string :=
  newline
  ++ "<p>Click or copy this link to verify your newly created account: "
  ++ "<a href=" ++ dquote ++ verificationLink ++ dquote
  ++ " target=" ++ dquote ++ "_blank" ++ dquote ++ ">"
  ++ verificationLink ++ "</a></p>" ++ newline.

(** [`${hostname}/verify/${token.id}`] *)
Definition verification_link (hostname tokenId : string) : string :=
  hostname ++ "/verify/" ++ tokenId.

Section Service.
Context {Profile : Type} `{Collaborators}.

(** [connection.transaction(body)]: the writes of a body that throws
    are rolled back; emails already handed over are not. *)
Definition transaction {A} (body : M (World Profile) A) : M (World Profile) A :=
  λ w, match body w with
       | (Ok a, w') => (Ok a, w')
       | (Throw e, w') =>
           (Throw e, {| users := users w; tokens := tokens w;
                        outbox := outbox w'; now := now w';
                        drawn := drawn w' |})
       end.

Definition doCredentialsMatch (email password : string)
    : M (World Profile) CredentialsResult :=
  (let* found :=
     findOne_secrets {| where_email := Some email;
                        where_isVerified := Some true |} in
   match found with
   | None => ret DontMatch
   | Some user =>
       let incomingPasswordHash :=
         bcrypt_hash password (sel_passwordSalt user) in
       if String.eqb incomingPasswordHash (sel_passwordHash user)
       then ret (Match user)
       else ret DontMatch
   end)%eff.

Definition verifyUser (tokenId : string) : M (World Profile) OkOrNotFound :=
  transaction
    (let* found := findTokenById tokenId in
     match found with
     | None => ret not_found
     | Some found =>
         let user := token_user found in
         let user := set_isVerified true user in
         save user ;;;
         deleteFromUser user ;;;
         ret ok
     end)%eff.

Definition sendVerificationLinkEmail (to verificationLink : string)
    : M (World Profile) unit :=
  sendEmail {| to := to; body := verification_body verificationLink |}.

Definition resendSignupVerificationToken (email hostname : string)
    : M (World Profile) OkOrNotFound :=
  transaction
    (let* found :=
       findOne {| where_email := Some email; where_isVerified := None |} in
     match found with
     | None => ret not_found
     | Some user =>
         let* token := findTokenByUser user in
         let* verificationLink :=
           match token with
           | None =>
               deleteFromUser user ;;;
               let* newToken :=
                 createToken user USERS_SIGNUP_VERIFICATION_TTL in
               ret (verification_link hostname (id newToken))
           | Some token =>
               ret (verification_link hostname (id token))
           end in
         sendVerificationLinkEmail (Accounts.email (columns user))
                                   verificationLink ;;;
         ret ok
     end)%eff.

Definition signup (data : UserSignupRequestDTO Profile) (hostname : string)
    : M (World Profile) SignupResult :=
  transaction
    (let* doesExist :=
       findOne {| where_email := Some (dto_email data);
                  where_isVerified := None |} in
     match doesExist with
     | Some doesExist =>
         if isVerified (columns doesExist)
         then ret AlreadyCreated
         else ret AwaitingVerification
     | None =>
         let* passwordSalt := draw bcrypt_genSalt in
         let passwordHash := bcrypt_hash (dto_password data) passwordSalt in
         (* { ...data } without [password] *)
         let dataWithoutPassword := (dto_email data, dto_profile data) in
         let* user :=
           create {| new_email := dataWithoutPassword.1;
                     new_profile := dataWithoutPassword.2;
                     new_passwordHash := passwordHash;
                     new_passwordSalt := passwordSalt;
                     new_role := EndUser |} in
         let* newToken :=
           createToken user USERS_SIGNUP_VERIFICATION_TTL in
         sendVerificationLinkEmail
           (Accounts.email (columns user))
           (verification_link hostname (id newToken)) ;;;
         ret Created
     end)%eff.

(** *** Vocabulary of the properties *)

(** Some account has the email [e], and every account that has it has
    the verification flag [v]. *)
Definition registered (e : string) (v : bool) (w : World Profile) : Prop :=
  (∃ k u, users w !! k = Some u ∧ Accounts.email u = e)
  ∧ (∀ k u, users w !! k = Some u → Accounts.email u = e →
            isVerified u = v).

(** No account has the email [e]. *)
Definition unregistered (e : string) (w : World Profile) : Prop :=
  ∀ k u, users w !! k = Some u → Accounts.email u ≠ e.

(** The password [pw] is the one of the account [u]. *)
Definition password_of (pw : string) (u : User Profile) : Prop :=
  bcrypt_hash pw (passwordSalt u) = passwordHash u.

(** The three ways credentials can fail. *)
Inductive failure_case (w : World Profile) (e pw : string) : Prop :=
  | wrong_password :
      registered e true w →
      (∀ k u, users w !! k = Some u → Accounts.email u = e →
              ¬ password_of pw u) →
      failure_case w e pw
  | unverified_account :
      registered e false w →
      (∀ k u, users w !! k = Some u → Accounts.email u = e →
              password_of pw u) →
      failure_case w e pw
  | unknown_email :
      unregistered e w →
      failure_case w e pw.

(** The account [k] has a token that has not expired. *)
Definition has_live_token (k : string) (w : World Profile) : Prop :=
  ∃ tid t, tokens w !! tid = Some t ∧ user t = k ∧ now w < expires t.

(** The constraints of the schema: emails are unique, and every token
    refers to a stored account. *)
Definition emails_unique (w : World Profile) : Prop :=
  ∀ k1 u1 k2 u2, users w !! k1 = Some u1 → users w !! k2 = Some u2 →
                 Accounts.email u1 = Accounts.email u2 → k1 = k2.

Definition tokens_owned (w : World Profile) : Prop :=
  ∀ tid t, tokens w !! tid = Some t → is_Some (users w !! user t).

Definition consistent (w : World Profile) : Prop :=
  emails_unique w ∧ tokens_owned w.
End Service.

(** [part] occurs in [s]. *)
Definition embeds (s part : string) : Prop :=
  ∃ before after, s = before ++ part ++ after.
End UsersService.

(** ** Sample data *)

Module Samples.

(** A database that returns rows in table order. *)
Definition table_order : RowOrdering :=
  {| order_rows := λ _ l, l;
     order_rows_perm := λ _ l, Permutation_refl l |}.

Definition sample_uuid (n : nat) : string := "uuid-" ++ pretty n.

Definition Note : Class :=
  {| class_name := "Note";
     superclasses := ["SimpleEntity"];
     initializers := {[ "pinned" := VBool false ]} |}.

Definition Tag : Class :=
  {| class_name := "Tag"; superclasses := ["SimpleEntity"];
     initializers := ∅ |}.

(** Notes are soft-deleted; archived notes have no deletion column. *)
Definition notes : EntityMetadata :=
  {| target := Note; deleteDateColumn := Some "deletedAt" |}.

Definition archived_notes : EntityMetadata :=
  {| target := Note; deleteDateColumn := None |}.

Definition a_note : obj :=
  {| proto_chain := ["Note"; "SimpleEntity"];
     own := {[ "id" := VStr "n1"; "title" := VStr "groceries" ]} |}.

Definition a_tag : obj :=
  {| proto_chain := ["Tag"; "SimpleEntity"];
     own := {[ "id" := VStr "n1" ]} |}.

Definition one_note : Db :=
  {| table := {[ "n1" := {[ "title" := VStr "groceries" ]} ]};
     clock := 1700000000000;
     issued := 0 |}.

(** Sixty notes, titled by their number. *)
Definition sixty_notes : Db :=
  {| table :=
       list_to_map ((λ n, (sample_uuid n, {[ "title" := VNum (Z.of_nat n) ]}))
                      <$> seq 0 60);
     clock := 1700000000000;
     issued := 60 |}.

Definition everything : FindOptions :=
  {| q_where := None; q_withDeleted := false; q_order := []; q_skip := 0 |}.

(** A payload that brings an [id] of its own. *)
Definition payload_with_id : gmap string val :=
  {[ "id" := VStr "chosen-by-caller"; "title" := VStr "groceries" ]}.

Definition collaborators : Collaborators :=
  {| bcrypt_hash := λ password salt, salt ++ "$" ++ password;
     bcrypt_genSalt := λ n, "salt-" ++ pretty n;
     generateUniqueUUID := sample_uuid;
     USERS_SIGNUP_VERIFICATION_TTL := 86400000 |}.

Definition alice_request : UserSignupRequestDTO string :=
  {| dto_email := "alice@example.org";
     dto_password := "correct horse";
     dto_profile := "Alice" |}.

Definition alice (verified : bool) : User string :=
  {| email := "alice@example.org";
     passwordHash := "s1$correct horse";
     passwordSalt := "s1";
     isVerified := verified;
     role := EndUser;
     profile := "Alice" |}.

Definition nobody : World string :=
  {| users := ∅; tokens := ∅; outbox := []; now := 1000; drawn := 0 |}.

(** Alice has signed up; her token [t1] is live. *)
Definition alice_pending : World string :=
  {| users := {[ "u1" := alice false ]};
     tokens := {[ "t1" := {| user := "u1"; expires := 5000 |} ]};
     outbox := []; now := 1000; drawn := 3 |}.

(** Alice has verified her account. *)
Definition alice_verified : World string :=
  {| users := {[ "u1" := alice true ]};
     tokens := ∅;
     outbox := []; now := 1000; drawn := 3 |}.

End Samples.

(** ** Vocabulary of the further properties *)

Module Paging.

(** [{ ...query, skip }] *)
Definition with_skip (q : FindOptions) (s : nat) : FindOptions :=
  {| q_where := q_where q; q_withDeleted := q_withDeleted q;
     q_order := q_order q; q_skip := s |}.

(** The find query that asks for what a findOne query asks for, from the
    first row on. *)
Definition as_find (q : FindOneOptions) : FindOptions :=
  {| q_where := Some (fo_where q); q_withDeleted := fo_withDeleted q;
     q_order := fo_order q; q_skip := 0 |}.

(** The findOne query for the row with identifier [i], deleted or not. *)
Definition one_by_id (i : string) (o : Order) : FindOneOptions :=
  {| fo_where := by_id i; fo_withDeleted := true; fo_order := o |}.

(** Whether a stored row is in the result set of a query. *)
Definition in_result (md : EntityMetadata) (q : FindOptions) (i : string)
    (c : gmap string val) : bool :=
  visible md (q_withDeleted q) (materialize (i, c))
  && matches_opt (q_where q) (materialize (i, c)).

Section Pages.
Context `{RowOrdering}.

(** All the rows a query matches, in the query's order. *)
Definition ordered (md : EntityMetadata) (q : FindOptions) (db : Db)
    : list (gmap string val) :=
  order_rows (q_order q) (selected md (q_where q) (q_withDeleted q) db).

(** The rows and the total that [find] answers. *)
Definition page_rows (md : EntityMetadata) (q : FindOptions) (db : Db)
    : list obj :=
  match (SimpleEntityRepository.find md q db).1 with
  | Ok page => SimpleEntityRepository.rows page
  | Throw _ => []
  end.

Definition page_total (md : EntityMetadata) (q : FindOptions) (db : Db)
    : nat :=
  match (SimpleEntityRepository.find md q db).1 with
  | Ok page => SimpleEntityRepository.total page
  | Throw _ => 0%nat
  end.
End Pages.

End Paging.
Import Paging.

Module Journey.
Section Journey.
Context {Profile : Type} `{Collaborators}.

(** The account signup stores for a request, given the salt drawn. *)
Definition account_of (data : UserSignupRequestDTO Profile) (salt : string)
    : User Profile :=
  {| email := dto_email data;
     passwordHash := bcrypt_hash (dto_password data) salt;
     passwordSalt := salt;
     isVerified := false;
     role := EndUser;
     profile := dto_profile data |}.

(** An account with its verification flag set. *)
Definition verified (u : User Profile) : User Profile :=
  columns (set_isVerified true {| id := EmptyString; columns := u |}).

(** The email that carries the link of the token [tokenId]. *)
Definition link_email (address hostname tokenId : string) : Email :=
  {| to := address;
     body := UsersService.verification_body
               (UsersService.verification_link hostname tokenId) |}.
End Journey.
End Journey.
Import Journey.

Module MoreSamples.
Import Samples.

(** The store right after Alice has signed up on an empty one. *)
Definition alice_signed_up : World string :=
  (@UsersService.signup string collaborators alice_request "https://app"
     nobody).2.

(** The store after Alice has asked for her link again. *)
Definition alice_resent : World string :=
  (@UsersService.resendSignupVerificationToken string collaborators
     "alice@example.org" "https://app" alice_pending).2.


Definition by_title : FindOptions :=
  {| q_where := Some (WObject [("title", CValue (VStr "groceries"))]);
     q_withDeleted := false; q_order := []; q_skip := 0 |}.

End MoreSamples.

(** * Properties of the entity store *)

Section EntityStore.
Import SimpleEntityRepository.
Context `{RowOrdering}.
Variable generateUniqueUUID : nat → string.
Variable md : EntityMetadata.

Lemma order_rows_elem_of (o : Order) (l : list (gmap string val)) r :
  r ∈ order_rows o l ↔ r ∈ l.
Proof. by rewrite (order_rows_perm o l). Qed.

Lemma order_rows_length (o : Order) (l : list (gmap string val)) :
  length (order_rows o l) = length l.
Proof. by rewrite (order_rows_perm o l). Qed.

Lemma elem_of_all_rows (db : Db) r :
  r ∈ all_rows db ↔ ∃ k c, table db !! k = Some c ∧ r = materialize (k, c).
Proof.
  unfold all_rows. rewrite list_elem_of_fmap. split.
  - intros [[k c] [-> Hin]]. apply elem_of_map_to_list in Hin. eauto.
  - intros (k & c & Hk & ->). exists (k, c).
    split; [done|]. by apply elem_of_map_to_list.
Qed.

Lemma entity_id_hydrate k c :
  entity_id (hydrate md (materialize (k, c))) = Some k.
Proof.
  unfold entity_id, hydrate, materialize; simpl.
  by rewrite (lookup_union_Some_l _ _ _ (VStr k)) by apply lookup_insert_eq.
Qed.

Lemma set_prop_plain (o : obj) (k : string) (v : val) :
  k ≠ "__proto__" →
  set_prop o k v
  = {| proto_chain := proto_chain o; own := <[k := v]> (own o) |}.
Proof.
  intros Hk. unfold set_prop. by rewrite bool_decide_eq_false_2.
Qed.


Lemma set_prop_own_ne (o : obj) (a k : string) (v : val) :
  k ≠ a → own (set_prop o a v) !! k = own o !! k.
Proof.
  intros Hne. unfold set_prop.
  destruct (_ && _); [by destruct (as_prototype v)|].
  simpl. by rewrite lookup_insert_ne.
Qed.

(** The key loop of [create], for the keys other than [__proto__]. *)
Lemma assign_keys_own (p : gmap string val) (ks : list string) (o : obj) k :
  k ≠ "__proto__" →
  own (foldl (λ entity key, set_prop entity key (get p key)) o ks) !! k
  = if decide (k ∈ ks) then Some (get p k) else own o !! k.
Proof.
  intros Hk. revert o. induction ks as [|a ks IH]; intros o; simpl.
  - destruct (decide (k ∈ [])) as [Hin|]; [|done].
    by apply not_elem_of_nil in Hin.
  - rewrite IH.
    destruct (decide (k ∈ ks)) as [Hin|Hin];
      destruct (decide (k ∈ a :: ks)) as [Hin'|Hin']; try done.
    + exfalso. apply Hin'. by right.
    + apply elem_of_cons in Hin' as [->|?]; [|done].
      rewrite set_prop_plain by done. apply lookup_insert_eq.
    + apply set_prop_own_ne. intros ->. apply Hin'. left.
Qed.

(** Without the key [__proto__] the loop only adds own properties. *)
Lemma assign_keys_proto (p : gmap string val) (ks : list string) (o : obj) :
  "__proto__" ∉ ks →
  proto_chain (foldl (λ entity key, set_prop entity key (get p key)) o ks)
  = proto_chain o.
Proof.
  revert o. induction ks as [|a ks IH]; intros o Hks; simpl; [done|].
  apply not_elem_of_cons in Hks as [Hne Hks].
  rewrite IH by done. by rewrite set_prop_plain.
Qed.

Lemma assign_keys_own_proto (p : gmap string val) (ks : list string)
    (o : obj) :
  "__proto__" ∉ ks →
  own (foldl (λ entity key, set_prop entity key (get p key)) o ks)
    !! "__proto__"
  = own o !! "__proto__".
Proof.
  revert o. induction ks as [|a ks IH]; intros o Hks; simpl; [done|].
  apply not_elem_of_cons in Hks as [Hne Hks].
  rewrite IH by done. by apply set_prop_own_ne.
Qed.


Lemma elem_of_object_keys (p : gmap string val) k :
  k ∈ object_keys p ↔ is_Some (p !! k).
Proof.
  unfold object_keys. rewrite list_elem_of_fmap. split.
  - intros [[k' v] [-> Hin]]. apply elem_of_map_to_list in Hin. eauto.
  - intros [v Hv]. exists (k, v). split; [done|]. by apply elem_of_map_to_list.
Qed.

(** The loop of [create] copies every property of the payload onto the
    new instance. *)
Lemma assign_all_keys (p : gmap string val) (o : obj) :
  p !! "__proto__" = None →
  own (foldl (λ entity key, set_prop entity key (get p key)) o
             (object_keys p))
  = p ∪ own o.
Proof.
  intros Hplain.
  assert (Hks : "__proto__" ∉ object_keys p).
  { rewrite elem_of_object_keys, Hplain. by intros [? ?]. }
  apply map_eq; intros k.
  destruct (decide (k = "__proto__")) as [->|Hk].
  { rewrite assign_keys_own_proto by done.
    symmetry. by apply lookup_union_r. }
  rewrite assign_keys_own by done.
  destruct (decide (k ∈ object_keys p)) as [Hin|Hin].
  - apply elem_of_object_keys in Hin as [v Hv].
    unfold get. rewrite Hv. simpl. symmetry. by apply lookup_union_Some_l.
  - rewrite elem_of_object_keys, <- eq_None_not_Some in Hin.
    symmetry. by apply lookup_union_r.
Qed.

(** The loop of [create] copies every property of the payload but
    [__proto__], whatever the payload. *)
Lemma assign_all_keys_lookup (p : gmap string val) (o : obj) k v :
  k ≠ "__proto__" →
  p !! k = Some v →
  own (foldl (λ entity key, set_prop entity key (get p key)) o
             (object_keys p)) !! k = Some v.
Proof.
  intros Hk Hv. rewrite assign_keys_own by done.
  rewrite decide_True by (apply elem_of_object_keys; eauto).
  unfold get. by rewrite Hv.
Qed.

Lemma instanceof_new_chain (o : obj) (C : Class) :
  proto_chain o = proto_chain (new C) → instanceof o C = true.
Proof.
  intros Hc. unfold instanceof. rewrite Hc. simpl.
  apply bool_decide_eq_true. left.
Qed.

(** What a query can return: hydrated rows of the table that are visible
    under the query's [withDeleted] option. *)
Lemma selected_inv (w : option Where) (wd : bool) (db : Db) r :
  r ∈ selected md w wd db →
  ∃ k c, table db !! k = Some c ∧ r = materialize (k, c)
         ∧ visible md wd r = true.
Proof.
  unfold selected. rewrite list_elem_of_filter, elem_of_all_rows.
  intros [Hp (k & c & Hk & ->)]. exists k, c. repeat split; [done|].
  apply andb_prop_elim in Hp as [Hv _]. by apply Is_true_true.
Qed.

Lemma retrievable_inv (i : string) (wd : bool) (db : Db) :
  retrievable md i wd db →
  ∃ c, table db !! i = Some c ∧ visible md wd (materialize (i, c)) = true.
Proof.
  intros [(q & e & <- & Hq & Hid)|(q & page & e & <- & Hq & Hin & Hid)].
  - unfold findOne, gets, orm_findOne in Hq.
    injection Hq as Hq.
    apply fmap_Some in Hq as (r & Hr & ->).
    apply head_Some_elem_of, order_rows_elem_of, selected_inv in Hr
      as (k & c & Hk & -> & Hv).
    rewrite entity_id_hydrate in Hid. injection Hid as ->. eauto.
  - unfold find, bind, gets, ret, orm_findAndCount in Hq.
    injection Hq as <-. simpl in Hin.
    apply list_elem_of_fmap in Hin as (r & -> & Hr).
    apply subseteq_take, subseteq_drop, order_rows_elem_of, selected_inv in Hr
      as (k & c & Hk & -> & Hv).
    rewrite entity_id_hydrate in Hid. injection Hid as ->. eauto.
Qed.

Lemma matches_by_id (i k : string) (c : gmap string val) :
  matches (by_id i) (materialize (k, c)) = bool_decide (k = i).
Proof.
  unfold by_id, matches, matches_object, materialize, column; simpl.
  rewrite lookup_insert_eq; simpl. rewrite andb_true_r.
  apply bool_decide_ext. split; [by intros [= ->]|by intros ->].
Qed.

Lemma visible_withDeleted (r : gmap string val) : visible md true r = true.
Proof. unfold visible. by destruct (deleteDateColumn md). Qed.

Lemma selected_by_id (i : string) (c : gmap string val) (db : Db) :
  table db !! i = Some c →
  selected md (Some (by_id i)) true db = [materialize (i, c)].
Proof.
  intros Hi. pose proof (visible_withDeleted (materialize (i, c))) as Hv.
  unfold selected, all_rows.
  apply Permutation_singleton_r.
  rewrite <- (insert_id (table db) i c Hi), <- insert_delete_eq.
  rewrite map_to_list_insert by apply lookup_delete_eq.
  rewrite fmap_cons, filter_cons_True.
  2:{ cbv beta; unfold matches_opt.
      rewrite matches_by_id, bool_decide_eq_true_2 by done.
      rewrite Hv. done. }
  match goal with
  | |- _ :: ?rest ≡ₚ _ => assert (rest = []) as ->; [|done]
  end.
  apply elem_of_nil_inv.
  intros r [Hp Hr]%list_elem_of_filter.
  apply list_elem_of_fmap in Hr as ([k c'] & -> & Hin).
  apply elem_of_map_to_list in Hin.
  destruct (decide (k = i)) as [->|Hne].
  - by rewrite lookup_delete_eq in Hin.
  - unfold matches_opt in Hp.
    rewrite matches_by_id, bool_decide_eq_false_2, andb_false_r in Hp by done.
    done.
Qed.

Lemma retrievable_by_id (i : string) (c : gmap string val) (db : Db) :
  table db !! i = Some c →
  retrievable md i true db.
Proof.
  intros Hi. left.
  exists {| fo_where := by_id i; fo_withDeleted := true; fo_order := [] |}.
  exists (hydrate md (materialize (i, c))).
  split; [done|]. split; [|apply entity_id_hydrate].
  unfold findOne, gets, orm_findOne; simpl.
  rewrite (selected_by_id i c db Hi).
  pose proof (order_rows_perm [] [materialize (i, c)]) as Hp.
  apply Permutation_singleton_r in Hp. by rewrite Hp.
Qed.

(** C7: a find query never returns more than 50 rows, reports the
    constant 50 as its limit, and reports as total the number of all
    matching rows, whatever the cap and the skip offset. *)
Theorem find_returns_capped_page (q : FindOptions) (db : Db) :
  ∃ page, find md q db = (Ok page, db)
    ∧ (length (rows page) ≤ 50)%nat
    ∧ limit page = 50%nat
    ∧ total page = length (selected md (q_where q) (q_withDeleted q) db)
    ∧ rows page =
        hydrate md <$>
          take 50 (drop (q_skip q)
                     (order_rows (q_order q)
                        (selected md (q_where q) (q_withDeleted q) db))).
Proof.
  eexists. split; [reflexivity|]. simpl.
  rewrite length_fmap, length_take, order_rows_length.
  repeat split; lia.
Qed.

(** C8: save and remove throw, with the table untouched, when the entity
    is not an instance of the store's entity class; when it is, the
    check passes and the persistence operation is what runs. *)
Theorem save_remove_check_instance (e : obj) (db : Db) :
  if instanceof e (target md)
  then save md e db = orm_save e db
       ∧ remove md e db =
           match deleteDateColumn md with
           | Some _ => orm_softRemove md e db
           | None => orm_remove e db
           end
       ∧ (∀ i, entity_id e = Some i →
            ∃ db' row, save md e db = (Ok tt, db')
                       ∧ table db' !! i = Some row
                       ∧ ∀ k v, own e !! k = Some v → row !! k = Some v)
  else save md e db = (Throw JsError, db)
       ∧ remove md e db = (Throw JsError, db).
Proof.
  unfold save, remove.
  destruct (instanceof e (target md)); simpl; [|done].
  split; [done|]. split; [by destruct (deleteDateColumn md)|].
  intros i Hi. unfold orm_save. rewrite Hi.
  eexists _, _. split; [reflexivity|]. simpl.
  split; [apply lookup_insert_eq|].
  intros k v Hk. by apply lookup_union_Some_l.
Qed.

(** C9: remove on a schema with a deletion timestamp column stamps the
    row, which from then on comes back only from a find/findOne that
    includes deleted rows; on a schema without one it deletes the row,
    which no find/findOne returns under any option. *)
Theorem remove_soft_or_physical (e : obj) (i : string) (db : Db) :
  instanceof e (target md) = true →
  entity_id e = Some i →
  ∃ db', remove md e db = (Ok tt, db')
    ∧ match deleteDateColumn md with
      | Some c =>
          table db' = alter (<[c := VDate (clock db)]>) i (table db)
          ∧ ¬ retrievable md i false db'
          ∧ (is_Some (table db !! i) → retrievable md i true db')
      | None =>
          table db' = delete i (table db)
          ∧ ∀ wd, ¬ retrievable md i wd db'
      end.
Proof.
  intros Hinst Hid. unfold remove. rewrite Hinst. simpl.
  destruct (deleteDateColumn md) as [c|] eqn:Hcol.
  - unfold orm_softRemove. rewrite Hid, Hcol.
    eexists. split; [reflexivity|]. simpl. split; [done|]. split.
    + intros (c' & Hc' & Hvis)%retrievable_inv. simpl in Hc'.
      rewrite lookup_alter_eq in Hc'.
      apply fmap_Some in Hc' as (c0 & _ & ->).
      unfold visible in Hvis. rewrite Hcol in Hvis. simpl in Hvis.
      unfold column, materialize in Hvis. simpl in Hvis.
      destruct (decide (c = "id")) as [->|Hne].
      * by rewrite lookup_insert_eq in Hvis.
      * rewrite lookup_insert_ne, lookup_insert_eq in Hvis by done. done.
    + intros [c0 Hc0].
      apply (retrievable_by_id i (<[c := VDate (clock db)]> c0)).
      simpl. by rewrite lookup_alter_eq, Hc0.
  - unfold orm_remove. rewrite Hid.
    eexists. split; [reflexivity|]. simpl. split; [done|].
    intros wd (c' & Hc' & _)%retrievable_inv. simpl in Hc'.
    by rewrite lookup_delete_eq in Hc'.
Qed.

(** What create does, step by step: the entity is what the key loop makes
    of a new instance, and it is saved under the generated identifier. *)
Lemma create_unfold (payload : gmap string val) (db : Db) :
  let uuid := generateUniqueUUID (issued db) in
  let copy := <["id" := VStr uuid]> payload in
  let entity :=
    foldl (λ entity key, set_prop entity key (get copy key))
          (new (target md)) (object_keys copy) in
  create generateUniqueUUID md payload db
  = (Ok entity,
     set_table (λ t, <[uuid := own entity ∪ default ∅ (t !! uuid)]> t)
               (bump_issued db))
  ∧ own entity !! "id" = Some (VStr uuid).
Proof.
  intros uuid copy entity.
  assert (Hid : own entity !! "id" = Some (VStr uuid)).
  { apply assign_all_keys_lookup; [done|]. apply lookup_insert_eq. }
  split; [|done].
  unfold create, bind, next_uuid, ret. fold uuid copy entity.
  unfold orm_save, entity_id. by rewrite Hid.
Qed.

Lemma create_overwrites_id_run (payload : gmap string val) (db : Db) :
  ∃ entity db',
    create generateUniqueUUID md payload db = (Ok entity, db')
    ∧ own entity !! "id" = Some (VStr (generateUniqueUUID (issued db)))
    ∧ issued db' = S (issued db).
Proof.
  destruct (create_unfold payload db) as [Hrun Hid].
  eexists _, _. split; [exact Hrun|]. split; [exact Hid|done].
Qed.



(** Successive calls of create draw successive identifiers: entities
    created one after the other differ in their [id] whenever the
    generator does not repeat itself. *)
Lemma create_twice_distinct_ids (p1 p2 : gmap string val) (db : Db) :
  Inj (=) (=) generateUniqueUUID →
  ∃ e1 db1 e2 db2,
    create generateUniqueUUID md p1 db = (Ok e1, db1)
    ∧ create generateUniqueUUID md p2 db1 = (Ok e2, db2)
    ∧ entity_id e1 ≠ entity_id e2.
Proof.
  intros Hinj.
  destruct (create_overwrites_id_run p1 db)
    as (e1 & db1 & Hc1 & Hid1 & Hissued).
  destruct (create_overwrites_id_run p2 db1)
    as (e2 & db2 & Hc2 & Hid2 & _).
  exists e1, db1, e2, db2. split; [done|]. split; [done|].
  unfold entity_id. rewrite Hid1, Hid2, Hissued.
  intros [= Heq%Hinj]. lia.
Qed.
End EntityStore.

(** * Properties of the account service *)

Lemma string_append_assoc (a b c : string) : (a ++ b) ++ c = a ++ b ++ c.
Proof.
  induction a as [|x a IH]; [done|].
  change (String x ((a ++ b) ++ c) = String x (a ++ b ++ c)).
  by rewrite IH.
Qed.

Section AccountService.
Import UsersRepository SignupVerificationTokensRepository EmailService.
Import UsersService.
Context {Profile : Type} `{Collaborators}.

Implicit Types (w : World Profile) (u : User Profile).

Lemma matches_email (e : string) u :
  matches {| where_email := Some e; where_isVerified := None |} u = true
  ↔ email u = e.
Proof.
  unfold matches; simpl. rewrite andb_true_r. apply String.eqb_eq.
Qed.

Lemma matches_email_verified (e : string) u :
  matches {| where_email := Some e; where_isVerified := Some true |} u = true
  ↔ email u = e ∧ isVerified u = true.
Proof.
  unfold matches; simpl.
  rewrite andb_true_iff, String.eqb_eq, Bool.eqb_true_iff. done.
Qed.

(** [findOne] reads the table and leaves the world as it is; what it
    returns is a stored account that satisfies the where object, and it
    returns nothing only when no stored account does. *)
Lemma findOne_run (q : UsersRepository.Where) w :
  ∃ r, findOne q w = (Ok r, w)
       ∧ match r with
         | Some x => users w !! id x = Some (columns x)
                     ∧ matches q (columns x) = true
         | None => ∀ k u, users w !! k = Some u → matches q u = false
         end.
Proof.
  unfold findOne, gets. eexists. split; [reflexivity|].
  destruct (List.find _ _) as [[k u]|] eqn:Hfind; simpl.
  - apply find_some in Hfind as [Hin Hm].
    apply list_elem_of_In, elem_of_map_to_list in Hin. done.
  - intros k u Hk.
    apply (find_none _ _ Hfind (k, u)).
    by apply list_elem_of_In, elem_of_map_to_list.
Qed.

(** The lookup by email that opens [signup] and
    [resendSignupVerificationToken]. *)
Ltac lookup_by_email e w r Hr Hspec :=
  destruct (findOne_run {| where_email := Some e;
                           where_isVerified := None |} w)
    as (r & Hr & Hspec).

Lemma findTokenByUser_run (x : Entity (User Profile)) w :
  ∃ r, findTokenByUser x w = (Ok r, w)
       ∧ match r with
         | Some tk => tokens w !! id tk = Some (columns tk)
                      ∧ user (columns tk) = id x
                      ∧ now w < expires (columns tk)
         | None => ¬ has_live_token (id x) w
         end.
Proof.
  unfold findTokenByUser, gets. eexists. split; [reflexivity|].
  destruct (List.find _ _) as [[k t]|] eqn:Hfind; simpl.
  - apply find_some in Hfind as [Hin Hm]. simpl in Hm.
    apply list_elem_of_In, elem_of_map_to_list in Hin.
    apply andb_true_iff in Hm as [Hu Hl].
    apply String.eqb_eq in Hu. apply Z.ltb_lt in Hl. done.
  - intros (tid & t & Ht & Hu & Hl).
    assert (Hin : In (tid, t) (map_to_list (tokens w)))
      by by apply list_elem_of_In, elem_of_map_to_list.
    pose proof (find_none _ _ Hfind _ Hin) as Hm. simpl in Hm.
    apply andb_false_iff in Hm as [Hm|Hm].
    + apply String.eqb_neq in Hm. done.
    + unfold is_live in Hm. apply Z.ltb_ge in Hm. lia.
Qed.

Lemma verification_body_embeds (hostname tokenId : string) :
  embeds (verification_body (verification_link hostname tokenId)) tokenId.
Proof.
  unfold embeds, verification_body, verification_link.
  exists (newline
          ++ "<p>Click or copy this link to verify your newly created account: "
          ++ "<a href=" ++ dquote ++ hostname ++ "/verify/").
  exists (dquote ++ " target=" ++ dquote ++ "_blank" ++ dquote ++ ">"
          ++ (hostname ++ "/verify/" ++ tokenId) ++ "</a></p>" ++ newline).
  by rewrite !string_append_assoc.
Qed.

(** How [doCredentialsMatch] runs: it never writes, and its result is
    decided by the verified account the lookup returns, if any. *)
Lemma doCredentialsMatch_run (e pw : string) w :
  ∃ r, findOne {| where_email := Some e; where_isVerified := Some true |} w
       = (Ok r, w)
    ∧ match r with
      | Some x =>
          users w !! id x = Some (columns x)
          ∧ email (columns x) = e
          ∧ isVerified (columns x) = true
          ∧ doCredentialsMatch e pw w =
              (Ok (if String.eqb (bcrypt_hash pw (passwordSalt (columns x)))
                                 (passwordHash (columns x))
                   then Match (select_secrets x)
                   else DontMatch), w)
      | None =>
          (∀ k u, users w !! k = Some u → email u = e →
                  isVerified u = false)
          ∧ doCredentialsMatch e pw w = (Ok DontMatch, w)
      end.
Proof.
  destruct (findOne_run {| where_email := Some e;
                           where_isVerified := Some true |} w)
    as (r & Hr & Hspec).
  exists r. split; [done|].
  unfold doCredentialsMatch, findOne_secrets, bind, ret. rewrite Hr.
  destruct r as [x|]; simpl.
  - destruct Hspec as [Hx [He Hv]%matches_email_verified].
    repeat split; try done.
    by destruct (String.eqb _ _).
  - split; [|done]. intros k u Hk He.
    specialize (Hspec k u Hk).
    destruct (isVerified u) eqn:Hv; [|done].
    assert (matches {| where_email := Some e;
                       where_isVerified := Some true |} u = true)
      by by apply matches_email_verified.
    congruence.
Qed.

Lemma failure_case_dont_match (e pw : string) w :
  failure_case w e pw → doCredentialsMatch e pw w = (Ok DontMatch, w).
Proof.
  intros Hcase.
  destruct (doCredentialsMatch_run e pw w) as ([x|] & _ & Hspec).
  - destruct Hspec as (Hx & He & Hv & ->).
    destruct Hcase as [_ Hwrong|[_ Hunv] _|Hnone].
    + destruct (String.eqb_spec
                  (bcrypt_hash pw (passwordSalt (columns x)))
                  (passwordHash (columns x))) as [Heq|]; [|done].
      by destruct (Hwrong _ _ Hx He).
    + specialize (Hunv _ _ Hx He). congruence.
    + by destruct (Hnone _ _ Hx).
  - by destruct Hspec as [_ ->].
Qed.

(** C4: for a verified account, [doCredentialsMatch] with its email
    answers match, with the account as fetched, exactly when the hash of
    the supplied password under the stored salt equals the stored hash;
    whatever it matches is a verified account with that email, of which
    only the password hash and the salt were fetched. *)
Theorem doCredentialsMatch_verified_account (k pw : string) u w :
  users w !! k = Some u →
  isVerified u = true →
  (∀ k' u', users w !! k' = Some u' → email u' = email u →
            isVerified u' = true → k' = k) →
  (password_of pw u →
     doCredentialsMatch (email u) pw w
     = (Ok (Match {| sel_passwordHash := passwordHash u;
                     sel_passwordSalt := passwordSalt u |}), w))
  ∧ (¬ password_of pw u →
       doCredentialsMatch (email u) pw w = (Ok DontMatch, w))
  ∧ (∀ e pw' w0 s,
       (doCredentialsMatch e pw' w0).1 = Ok (Match s) →
       ∃ k0 u0, users w0 !! k0 = Some u0
                ∧ email u0 = e
                ∧ isVerified u0 = true
                ∧ password_of pw' u0
                ∧ s = {| sel_passwordHash := passwordHash u0;
                         sel_passwordSalt := passwordSalt u0 |}).
Proof.
  intros Hk Hv Huniq.
  assert (Hrun : doCredentialsMatch (email u) pw w =
                 (Ok (if String.eqb (bcrypt_hash pw (passwordSalt u))
                                    (passwordHash u)
                      then Match {| sel_passwordHash := passwordHash u;
                                    sel_passwordSalt := passwordSalt u |}
                      else DontMatch), w)).
  { destruct (doCredentialsMatch_run (email u) pw w) as ([x|] & _ & Hspec).
    - destruct Hspec as (Hx & He & Hxv & ->).
      pose proof (Huniq _ _ Hx He Hxv) as Hid.
      rewrite Hid, Hk in Hx. injection Hx as Hx.
      unfold select_secrets. by rewrite <- Hx.
    - destruct Hspec as [Hnone _].
      specialize (Hnone _ _ Hk eq_refl). congruence. }
  unfold password_of. repeat split.
  - intros Hpw. rewrite Hrun.
    by rewrite (proj2 (String.eqb_eq _ _) Hpw).
  - intros Hpw. rewrite Hrun.
    by rewrite (proj2 (String.eqb_neq _ _) Hpw).
  - intros e pw' w0 s Hm.
    destruct (doCredentialsMatch_run e pw' w0) as ([x|] & _ & Hspec).
    + destruct Hspec as (Hx & He & Hxv & Hrun0).
      rewrite Hrun0 in Hm. simpl in Hm.
      destruct (String.eqb_spec
                  (bcrypt_hash pw' (passwordSalt (columns x)))
                  (passwordHash (columns x))) as [Heq|]; [|done].
      injection Hm as <-.
      exists (id x), (columns x). done.
    + destruct Hspec as [_ Hrun0]. by rewrite Hrun0 in Hm.
Qed.

(** C1: signup answers AlreadyCreated, or AwaitingVerification, and
    changes nothing when the email is registered and verified, or
    registered and unverified; when the email is not registered it
    inserts one account (unverified, end-user role, holding the salted
    hash instead of the password), inserts one token for it, hands over
    one email whose link embeds the identifier of that token, and
    answers Created. *)
Theorem signup_cases (data : UserSignupRequestDTO Profile)
    (hostname : string) w :
  (registered (dto_email data) true w →
     signup data hostname w = (Ok AlreadyCreated, w))
  ∧ (registered (dto_email data) false w →
       signup data hostname w = (Ok AwaitingVerification, w))
  ∧ (unregistered (dto_email data) w →
       let salt := bcrypt_genSalt (drawn w) in
       let uid := generateUniqueUUID (S (drawn w)) in
       let tid := generateUniqueUUID (S (S (drawn w))) in
       let mail := {| to := dto_email data;
                      body := verification_body
                                (verification_link hostname tid) |} in
       ∃ w', signup data hostname w = (Ok Created, w')
         ∧ users w' =
             <[uid := {| email := dto_email data;
                         passwordHash :=
                           bcrypt_hash (dto_password data) salt;
                         passwordSalt := salt;
                         isVerified := false;
                         role := EndUser;
                         profile := dto_profile data |}]> (users w)
         ∧ tokens w' =
             <[tid := {| user := uid;
                         expires := now w + USERS_SIGNUP_VERIFICATION_TTL |}]>
               (tokens w)
         ∧ outbox w' = (outbox w ++ [mail])%list
         ∧ embeds (body mail) tid
         ∧ (users w !! uid = None → size (users w') = S (size (users w)))
         ∧ (tokens w !! tid = None →
              size (tokens w') = S (size (tokens w)))).
Proof.
  lookup_by_email (dto_email data) w r Hr Hspec.
  unfold signup, transaction, bind. rewrite Hr.
  destruct r as [x|].
  - destruct Hspec as [Hx He%matches_email].
    split; [|split].
    + intros [_ Hall]. by rewrite (Hall _ _ Hx He).
    + intros [_ Hall]. by rewrite (Hall _ _ Hx He).
    + intros Hnone. by destruct (Hnone _ _ Hx).
  - split; [|split].
    + intros [(k & u & Hk & He) _].
      apply matches_email in He. rewrite (Hspec _ _ Hk) in He. done.
    + intros [(k & u & Hk & He) _].
      apply matches_email in He. rewrite (Hspec _ _ Hk) in He. done.
    + intros _. simpl. eexists. split; [reflexivity|]. simpl.
      repeat split.
      * apply verification_body_embeds.
      * intros Hfresh. by apply map_size_insert_None.
      * intros Hfresh. by apply map_size_insert_None.
Qed.

Lemma verifyUser_unfold (tokenId : string) w :
  verifyUser tokenId w =
    match tokens w !! tokenId with
    | Some t =>
        match users w !! user t with
        | Some u =>
            (Ok ok,
             set_tokens (filter (λ kv, user kv.2 ≠ user t))
               (set_users
                  (<[user t := {| email := email u;
                                  passwordHash := passwordHash u;
                                  passwordSalt := passwordSalt u;
                                  isVerified := true;
                                  role := role u;
                                  profile := profile u |}]>) w))
        | None => (Ok not_found, w)
        end
    | None => (Ok not_found, w)
    end.
Proof.
  unfold verifyUser, transaction, bind, findTokenById, gets.
  destruct (tokens w !! tokenId) as [t|]; [|done].
  by destruct (users w !! user t).
Qed.

(** C2: with an id that matches no stored token, verifyUser answers
    not-found and changes nothing; with the id of a stored token it saves
    the owning account with its verified flag set, deletes every token of
    that account, and answers ok. *)
Theorem verifyUser_cases (tokenId : string) w :
  (tokens w !! tokenId = None →
     verifyUser tokenId w = (Ok not_found, w))
  ∧ (∀ t u, tokens w !! tokenId = Some t → users w !! user t = Some u →
       ∃ w', verifyUser tokenId w = (Ok ok, w')
         ∧ users w' =
             <[user t := {| email := email u;
                            passwordHash := passwordHash u;
                            passwordSalt := passwordSalt u;
                            isVerified := true;
                            role := role u;
                            profile := profile u |}]> (users w)
         ∧ tokens w' = filter (λ kv, user kv.2 ≠ user t) (tokens w)
         ∧ (∀ k t', tokens w' !! k = Some t' → user t' ≠ user t)
         ∧ (∀ k t', tokens w !! k = Some t' → user t' ≠ user t →
                    tokens w' !! k = Some t')
         ∧ outbox w' = outbox w).
Proof.
  rewrite verifyUser_unfold. split.
  - by intros ->.
  - intros t u -> ->. eexists. split; [reflexivity|]. simpl.
    repeat split.
    + intros k t' [_ Hne]%map_lookup_filter_Some. done.
    + intros k t' Hk Hne. by apply map_lookup_filter_Some.
Qed.

(** C6: when verifyUser has answered ok for a token id, no token of the
    owning account remains, and verifyUser called again with the same id
    on the resulting state answers not-found. *)
Theorem verifyUser_twice_not_found (tokenId : string) w w' :
  verifyUser tokenId w = (Ok ok, w') →
  verifyUser tokenId w' = (Ok not_found, w')
  ∧ ∃ t, tokens w !! tokenId = Some t
         ∧ ∀ k t', tokens w' !! k = Some t' → user t' ≠ user t.
Proof.
  rewrite !verifyUser_unfold.
  destruct (tokens w !! tokenId) as [t|] eqn:Ht; [|done].
  destruct (users w !! user t) as [u|] eqn:Hu; [|done].
  intros [= <-]. simpl.
  assert (Hgone : ∀ k t', filter (λ kv, user kv.2 ≠ user t) (tokens w) !! k
                          = Some t' → user t' ≠ user t).
  { intros k t' [_ Hne]%map_lookup_filter_Some. done. }
  split; [|eauto].
  destruct (filter _ (tokens w) !! tokenId) as [t'|] eqn:Ht'; [|done].
  apply map_lookup_filter_Some in Ht' as [Ht' Hne].
  simpl in Hne. congruence.
Qed.

(** C3: resending to an email that no account has answers not-found;
    otherwise, for the account found: if it has a live token, no token is
    created or deleted and the link emailed embeds the identifier of a
    live token of the account; if it has none, its tokens are deleted, a
    token expiring after the fixed time-to-live is created, and the link
    embeds the new identifier; either way one email goes to the
    account's address and the answer is ok. *)
Theorem resend_reuses_or_creates (e hostname : string) w :
  (unregistered e w →
     resendSignupVerificationToken e hostname w = (Ok not_found, w))
  ∧ ((∃ k u, users w !! k = Some u ∧ email u = e) →
       ∃ k u, users w !! k = Some u ∧ email u = e
         ∧ (has_live_token k w →
              ∃ tid t, tokens w !! tid = Some t
                ∧ user t = k
                ∧ now w < expires t
                ∧ embeds (verification_body
                            (verification_link hostname tid)) tid
                ∧ resendSignupVerificationToken e hostname w =
                    (Ok ok,
                     push_email
                       {| to := e;
                          body := verification_body
                                    (verification_link hostname tid) |}
                       w))
         ∧ (¬ has_live_token k w →
              let tid := generateUniqueUUID (drawn w) in
              let mail := {| to := e;
                             body := verification_body
                                       (verification_link hostname tid) |} in
              ∃ w', resendSignupVerificationToken e hostname w = (Ok ok, w')
                ∧ users w' = users w
                ∧ tokens w' =
                    <[tid := {| user := k;
                                expires :=
                                  now w + USERS_SIGNUP_VERIFICATION_TTL |}]>
                      (filter (λ kv, user kv.2 ≠ k) (tokens w))
                ∧ outbox w' = (outbox w ++ [mail])%list
                ∧ embeds (body mail) tid)).
Proof.
  lookup_by_email e w r Hr Hspec.
  unfold resendSignupVerificationToken, transaction, bind. rewrite Hr.
  destruct r as [x|].
  - destruct Hspec as [Hx He%matches_email]. split.
    + intros Hnone. by destruct (Hnone _ _ Hx).
    + intros _. exists (id x), (columns x). split; [done|]. split; [done|].
      destruct (findTokenByUser_run x w) as (tk & Htk & Htkspec).
      rewrite Htk. destruct tk as [tk|].
      * destruct Htkspec as (Hstored & Howner & Hlive). split.
        -- intros _. exists (id tk), (columns tk).
           repeat split; try done.
           ++ apply verification_body_embeds.
           ++ by rewrite He.
        -- intros Hno. destruct Hno. by exists (id tk), (columns tk).
      * split; [done|]. intros _. simpl.
        eexists. split; [by rewrite He|]. simpl.
        repeat split. apply verification_body_embeds.
  - split; [done|].
    intros (k & u & Hk & He).
    apply matches_email in He. rewrite (Hspec _ _ Hk) in He. done.
Qed.

(** C5: wrong password, unverified account and unknown email all give the
    same result value, the constant dont-match, and leave the world as it
    was, so the result tells nothing about which case occurred. *)
Theorem doCredentialsMatch_failures_identical
    (e1 pw1 e2 pw2 : string) w1 w2 :
  failure_case w1 e1 pw1 →
  failure_case w2 e2 pw2 →
  doCredentialsMatch e1 pw1 w1 = (Ok DontMatch, w1)
  ∧ doCredentialsMatch e2 pw2 w2 = (Ok DontMatch, w2)
  ∧ (doCredentialsMatch e1 pw1 w1).1 = (doCredentialsMatch e2 pw2 w2).1.
Proof.
  intros H1%failure_case_dont_match H2%failure_case_dont_match.
  by rewrite H1, H2.
Qed.
(** ** The schema constraints are kept by the service *)

Lemma consistent_no_accounts w :
  users w = ∅ → tokens w = ∅ → consistent w.
Proof.
  intros Hu Ht. split.
  - intros k1 u1 k2 u2 Hk1. by rewrite Hu, lookup_empty in Hk1.
  - intros tid t Htid. by rewrite Ht, lookup_empty in Htid.
Qed.

Lemma emails_unique_registered (k : string) u w :
  emails_unique w → users w !! k = Some u →
  registered (email u) (isVerified u) w.
Proof.
  intros Huniq Hk. split; [by exists k, u|].
  intros k' u' Hk' He.
  pose proof (Huniq _ _ _ _ Hk' Hk He) as ->. congruence.
Qed.

Lemma signup_consistent (data : UserSignupRequestDTO Profile)
    (hostname : string) w :
  consistent w → consistent (signup data hostname w).2.
Proof.
  intros [Huniq Hown].
  lookup_by_email (dto_email data) w r Hr Hspec.
  unfold signup, transaction, bind. rewrite Hr.
  destruct r as [x|]; [by destruct (isVerified (columns x))|].
  assert (Hnew : ∀ k u, users w !! k = Some u → email u ≠ dto_email data).
  { intros k u Hk He%matches_email. rewrite (Hspec _ _ Hk) in He. done. }
  simpl. split.
  - intros k1 u1 k2 u2. simpl.
    rewrite !lookup_insert_Some.
    intros [[<- <-]|[Hne1 Hk1]] [[<- <-]|[Hne2 Hk2]] He; simpl in He.
    + done.
    + by destruct (Hnew _ _ Hk2).
    + by destruct (Hnew _ _ Hk1).
    + by apply (Huniq _ _ _ _ Hk1 Hk2).
  - intros tid t. simpl. rewrite lookup_insert_Some.
    intros [[_ <-]|[_ Htid]]; simpl.
    + rewrite lookup_insert_eq. by eexists.
    + apply lookup_insert_is_Some'. right. by apply (Hown tid).
Qed.

Lemma verifyUser_consistent (tokenId : string) w :
  consistent w → consistent (verifyUser tokenId w).2.
Proof.
  intros [Huniq Hown]. rewrite verifyUser_unfold.
  destruct (tokens w !! tokenId) as [t|] eqn:Ht; [|done].
  destruct (users w !! user t) as [u|] eqn:Hu; [|done].
  simpl. split.
  - intros k1 u1 k2 u2. simpl.
    rewrite !lookup_insert_Some.
    intros [[<- <-]|[Hne1 Hk1]] [[<- <-]|[Hne2 Hk2]] He; simpl in He.
    + done.
    + by apply (Huniq _ _ _ _ Hu Hk2).
    + by apply (Huniq _ _ _ _ Hk1 Hu).
    + by apply (Huniq _ _ _ _ Hk1 Hk2).
  - intros tid t'. simpl.
    intros [Htid _]%map_lookup_filter_Some.
    apply lookup_insert_is_Some'. right. by apply (Hown tid).
Qed.

Lemma resend_consistent (e hostname : string) w :
  consistent w →
  consistent (resendSignupVerificationToken e hostname w).2.
Proof.
  intros [Huniq Hown].
  lookup_by_email e w r Hr Hspec.
  unfold resendSignupVerificationToken, transaction, bind. rewrite Hr.
  destruct r as [x|]; [|done].
  destruct Hspec as [Hx _].
  destruct (findTokenByUser_run x w) as (tk & Htk & _).
  rewrite Htk. destruct tk as [tk|]; simpl; [done|].
  split; [done|].
  intros tid t. simpl. rewrite lookup_insert_Some.
  intros [[_ <-]|[_ [Htid _]%map_lookup_filter_Some]]; simpl.
  - by rewrite Hx.
  - by apply (Hown tid).
Qed.
End AccountService.

(** * The properties at sample inputs *)

Section Witnesses.
Import Samples MoreSamples SimpleEntityRepository.
#[local] Existing Instance table_order.

(** Sixty notes match; the page holds fifty of them and the total is sixty. *)
Lemma find_returns_capped_page_witness :
  ∃ page, find notes everything sixty_notes = (Ok page, sixty_notes)
    ∧ length (rows page) = 50%nat
    ∧ limit page = 50%nat
    ∧ total page = 60%nat.
Proof.
  destruct (find_returns_capped_page notes everything sixty_notes)
    as (page & Hfind & _ & Hlimit & Htotal & Hrows).
  exists page. split; [exact Hfind|]. split; [|split; [exact Hlimit|]].
  - rewrite Hrows. vm_compute. reflexivity.
  - rewrite Htotal. vm_compute. reflexivity.
Defined.

(** A tag is refused by the notes repository; a note is handed on. *)
Lemma save_remove_check_instance_witness :
  (save notes a_tag one_note = (Throw JsError, one_note)
   ∧ remove notes a_tag one_note = (Throw JsError, one_note))
  ∧ save notes a_note one_note = orm_save a_note one_note.
Proof.
  split.
  - exact (save_remove_check_instance notes a_tag one_note).
  - exact (proj1 (save_remove_check_instance notes a_note one_note)).
Defined.

(** The same note removed under a schema with, and one without, a deletion
    column. *)
Lemma remove_soft_or_physical_witness :
  instanceof a_note (target notes) = true
  ∧ entity_id a_note = Some "n1"
  ∧ (∃ db', remove notes a_note one_note = (Ok tt, db')
       ∧ ¬ retrievable notes "n1" false db'
       ∧ retrievable notes "n1" true db')
  ∧ (∃ db', remove archived_notes a_note one_note = (Ok tt, db')
       ∧ ∀ wd, ¬ retrievable archived_notes "n1" wd db').
Proof.
  split; [reflexivity|]. split; [reflexivity|]. split.
  - destruct (remove_soft_or_physical notes a_note "n1" one_note
                eq_refl eq_refl) as (db' & Hremove & _ & Hhidden & Hkept).
    exists db'. split; [exact Hremove|]. split; [exact Hhidden|].
    apply Hkept. eexists. reflexivity.
  - destruct (remove_soft_or_physical archived_notes a_note "n1" one_note
                eq_refl eq_refl) as (db' & Hremove & _ & Hgone).
    exists db'. split; [exact Hremove|exact Hgone].
Defined.


End Witnesses.

Section AccountWitnesses.
Import Samples UsersService.
#[local] Existing Instance collaborators.

(** A lookup in a one-row table finds that row. *)
Ltac sole_row H :=
  simpl in H; apply lookup_singleton_Some in H as [? ?]; simplify_eq.

Lemma alice_registered (v : bool) (w : World string) :
  users w = {[ "u1" := alice v ]} → registered "alice@example.org" v w.
Proof.
  intros Hw. split.
  - exists "u1", (alice v). by rewrite Hw, lookup_singleton_eq.
  - intros k u Hk _. rewrite Hw in Hk. by sole_row Hk.
Qed.

Lemma nobody_unregistered (e : string) : unregistered e nobody.
Proof. intros k u Hk. simpl in Hk. by rewrite lookup_empty in Hk. Qed.

(** Alice signs up on an empty store, while pending, and once verified. *)
Lemma signup_cases_witness :
  unregistered "alice@example.org" nobody
  ∧ (∃ w', signup alice_request "https://app" nobody = (Ok Created, w')
       ∧ size (users w') = 1%nat
       ∧ size (tokens w') = 1%nat
       ∧ length (outbox w') = 1%nat)
  ∧ signup alice_request "https://app" alice_pending
    = (Ok AwaitingVerification, alice_pending)
  ∧ signup alice_request "https://app" alice_verified
    = (Ok AlreadyCreated, alice_verified).
Proof.
  pose proof (nobody_unregistered "alice@example.org") as Hnone.
  split; [exact Hnone|]. split; [|split].
  - destruct (signup_cases alice_request "https://app" nobody)
      as (_ & _ & Hcreated).
    destruct (Hcreated Hnone)
      as (w' & Hrun & Husers & Htokens & Hout & _ & Hone & Hone').
    exists w'. split; [exact Hrun|]. split; [|split].
    + by rewrite (Hone eq_refl).
    + by rewrite (Hone' eq_refl).
    + by rewrite Hout.
  - apply (signup_cases alice_request "https://app" alice_pending).
    by apply alice_registered.
  - apply (signup_cases alice_request "https://app" alice_verified).
    by apply alice_registered.
Defined.

(** An unknown token id, then the id of Alice's token. *)
Lemma verifyUser_cases_witness :
  verifyUser "unknown" alice_pending = (Ok not_found, alice_pending)
  ∧ ∃ w', verifyUser "t1" alice_pending = (Ok ok, w')
      ∧ users w' !! "u1" = Some (alice true)
      ∧ tokens w' !! "t1" = None.
Proof.
  destruct (verifyUser_cases "unknown" alice_pending) as [Hmiss _].
  destruct (verifyUser_cases "t1" alice_pending) as [_ Hhit].
  split; [by apply Hmiss|].
  destruct (Hhit {| user := "u1"; expires := 5000 |} (alice false)
              eq_refl eq_refl)
    as (w' & Hrun & Husers & Htokens & _).
  exists w'. split; [exact Hrun|]. split.
  - rewrite Husers. reflexivity.
  - rewrite Htokens. reflexivity.
Defined.

(** Alice follows her link twice. *)
Lemma verifyUser_twice_not_found_witness :
  verifyUser "t1" alice_pending = (Ok ok, alice_verified)
  ∧ verifyUser "t1" alice_verified = (Ok not_found, alice_verified).
Proof.
  assert (Hfirst : verifyUser "t1" alice_pending = (Ok ok, alice_verified))
    by (vm_compute; reflexivity).
  split; [exact Hfirst|].
  exact (proj1 (verifyUser_twice_not_found "t1" alice_pending
                  alice_verified Hfirst)).
Defined.

(** Resending to an unknown address, then to Alice, whose token [t1] is
    live and is the one linked. *)
Lemma resend_reuses_or_creates_witness :
  resendSignupVerificationToken "bob@example.org" "https://app" alice_pending
  = (Ok not_found, alice_pending)
  ∧ resendSignupVerificationToken "alice@example.org" "https://app"
      alice_pending
    = (Ok ok,
       push_email
         {| to := "alice@example.org";
            body := verification_body
                      (verification_link "https://app" "t1") |}
         alice_pending).
Proof.
  destruct (resend_reuses_or_creates "bob@example.org" "https://app"
              alice_pending) as [Hmiss _].
  destruct (resend_reuses_or_creates "alice@example.org" "https://app"
              alice_pending) as [_ Hhit].
  split.
  - apply Hmiss. intros k u Hk. by sole_row Hk.
  - destruct Hhit as (k & u & Hk & _ & Hlive & _).
    { exists "u1", (alice false). done. }
    sole_row Hk.
    destruct Hlive as (tid & t & Ht & _ & _ & _ & Hrun).
    { exists "t1", {| user := "u1"; expires := 5000 |}. done. }
    sole_row Ht. exact Hrun.
Defined.

(** Alice, verified, logs in with the right and with a wrong password. *)
Lemma doCredentialsMatch_verified_account_witness :
  users alice_verified !! "u1" = Some (alice true)
  ∧ isVerified (alice true) = true
  ∧ doCredentialsMatch "alice@example.org" "correct horse" alice_verified
    = (Ok (Match {| sel_passwordHash := "s1$correct horse";
                    sel_passwordSalt := "s1" |}), alice_verified)
  ∧ doCredentialsMatch "alice@example.org" "battery staple" alice_verified
    = (Ok DontMatch, alice_verified).
Proof.
  split; [reflexivity|]. split; [reflexivity|].
  destruct (doCredentialsMatch_verified_account "u1" "correct horse"
              (alice true) alice_verified eq_refl eq_refl)
    as (Hright & _).
  { intros k' u' Hk' _ _. by sole_row Hk'. }
  destruct (doCredentialsMatch_verified_account "u1" "battery staple"
              (alice true) alice_verified eq_refl eq_refl)
    as (_ & Hwrong & _).
  { intros k' u' Hk' _ _. by sole_row Hk'. }
  split.
  - apply Hright. reflexivity.
  - apply Hwrong. unfold password_of. simpl. discriminate.
Defined.

(** A wrong password, an unverified account and an unknown address answer
    alike. *)
Lemma doCredentialsMatch_failures_identical_witness :
  failure_case alice_verified "alice@example.org" "battery staple"
  ∧ failure_case alice_pending "alice@example.org" "correct horse"
  ∧ failure_case nobody "alice@example.org" "correct horse"
  ∧ (doCredentialsMatch "alice@example.org" "battery staple"
       alice_verified).1
    = (doCredentialsMatch "alice@example.org" "correct horse"
         alice_pending).1
  ∧ (doCredentialsMatch "alice@example.org" "correct horse"
       alice_pending).1
    = (doCredentialsMatch "alice@example.org" "correct horse" nobody).1.
Proof.
  assert (Hwrong : failure_case alice_verified "alice@example.org"
                     "battery staple").
  { apply wrong_password; [by apply alice_registered|].
    intros k u Hk _. sole_row Hk.
    unfold password_of. simpl. discriminate. }
  assert (Hunverified : failure_case alice_pending "alice@example.org"
                          "correct horse").
  { apply unverified_account; [by apply alice_registered|].
    intros k u Hk _. sole_row Hk. reflexivity. }
  assert (Hunknown : failure_case nobody "alice@example.org"
                       "correct horse")
    by apply unknown_email, nobody_unregistered.
  split; [exact Hwrong|]. split; [exact Hunverified|].
  split; [exact Hunknown|]. split.
  - exact (proj2 (proj2 (doCredentialsMatch_failures_identical
                           _ _ _ _ _ _ Hwrong Hunverified))).
  - exact (proj2 (proj2 (doCredentialsMatch_failures_identical
                           _ _ _ _ _ _ Hunverified Hunknown))).
Defined.
End AccountWitnesses.

(** * A run of the service *)

Section Scenario.
Import Samples UsersService.
#[local] Existing Instance collaborators.

(** Alice signs up, cannot log in yet, follows the emailed link, and then
    logs in; the link works once. *)
Example signup_verify_login :
  let w1 := (signup alice_request "https://app" nobody).2 in
  let w2 := (verifyUser "uuid-2" w1).2 in
  (signup alice_request "https://app" nobody).1 = Ok Created
  ∧ to <$> outbox w1 = ["alice@example.org"]
  ∧ (doCredentialsMatch "alice@example.org" "correct horse" w1).1
    = Ok DontMatch
  ∧ (verifyUser "uuid-2" w1).1 = Ok ok
  ∧ (doCredentialsMatch "alice@example.org" "correct horse" w2).1
    = Ok (Match {| sel_passwordHash := "salt-0$correct horse";
                   sel_passwordSalt := "salt-0" |})
  ∧ (verifyUser "uuid-2" w2).1 = Ok not_found
  ∧ (signup alice_request "https://app" w2).1 = Ok AlreadyCreated.
Proof. vm_compute. repeat split. Qed.
End Scenario.

Section StoreScenario.
Import Samples SimpleEntityRepository.
#[local] Existing Instance table_order.

(** A note is created from a payload that carries an [id], found, removed
    softly, and from then on found only among the deleted rows. *)
Example create_find_remove :
  let created := create sample_uuid notes payload_with_id one_note in
  let note := match created.1 with Ok e => e | Throw _ => a_tag end in
  let db1 := created.2 in
  let db2 := (remove notes note db1).2 in
  let count q db :=
    match (find notes q db).1 with Ok page => total page | Throw _ => 0%nat end in
  entity_id note = Some "uuid-0"
  ∧ count everything db1 = 2%nat
  ∧ (remove notes note db1).1 = Ok tt
  ∧ count everything db2 = 1%nat
  ∧ count {| q_where := None; q_withDeleted := true;
             q_order := []; q_skip := 0 |} db2 = 2%nat
  ∧ (save notes a_tag db2).1 = Throw JsError.
Proof. vm_compute. repeat split. Qed.
End StoreScenario.

(** * Further properties of the entity store *)

Section EntityStoreMore.
Import SimpleEntityRepository.
Context `{RowOrdering}.
Variable generateUniqueUUID : nat → string.
Variable md : EntityMetadata.

Lemma page_rows_eq (q : FindOptions) (db : Db) :
  page_rows md q db = hydrate md <$> take 50 (drop (q_skip q) (ordered md q db)).
Proof. reflexivity. Qed.

Lemma page_total_eq (q : FindOptions) (db : Db) :
  page_total md q db = length (selected md (q_where q) (q_withDeleted q) db).
Proof.
  unfold page_total, find, bind, gets, ret, orm_findAndCount; simpl.
  apply order_rows_length.
Qed.

(** X1: the page that find returns holds exactly the rows left after the
    skip offset, up to 50 of them; past the end it is empty, and the total
    is still the full count. *)
Theorem find_page_size (q : FindOptions) (db : Db) :
  ∃ page, find md q db = (Ok page, db)
    ∧ length (rows page) = (50 `min` (total page - q_skip q))%nat
    ∧ ((total page ≤ q_skip q)%nat → rows page = [])
    ∧ total page = page_total md (with_skip q 0) db.
Proof.
  eexists. split; [reflexivity|]. simpl.
  rewrite length_fmap, length_take, length_drop. split; [done|]. split.
  - intros Hle. by rewrite drop_ge.
  - unfold page_total; simpl. done.
Qed.

(** X3: findOne answers nothing exactly when the find that asks the same
    question counts no row, and what it answers otherwise is one of the
    rows that find counts: a stored row, visible to the query and
    matching it. *)
Theorem findOne_agrees_with_find (q : FindOneOptions) (db : Db) :
  (findOne md q db = (Ok None, db) ↔ page_total md (as_find q) db = 0%nat)
  ∧ ∀ e, findOne md q db = (Ok (Some e), db) →
         ∃ i c, table db !! i = Some c
                ∧ e = hydrate md (materialize (i, c))
                ∧ in_result md (as_find q) i c = true.
Proof.
  rewrite page_total_eq. unfold findOne, gets, orm_findOne. simpl.
  set (l := selected md _ _ db).
  pose proof (order_rows_length (fo_order q) l) as Hlen.
  pose proof (order_rows_elem_of (fo_order q) l) as Hin.
  destruct (order_rows (fo_order q) l) as [|r rs] eqn:Hl; simpl in *.
  - split; [by split|]. by intros e.
  - split.
    + split; [done|]. intros Hz. rewrite Hz in Hlen. done.
    + intros e [= <-].
      assert (Hr : r ∈ l) by (apply Hin; left).
      apply list_elem_of_filter in Hr as [Hp Hr].
      apply elem_of_all_rows in Hr as (i & c & Hi & ->).
      exists i, c. split; [done|]. split; [done|].
      by apply Is_true_true.
Qed.

(** What create does, step by step. *)
Lemma create_run (payload : gmap string val) (db : Db) :
  let uuid := generateUniqueUUID (issued db) in
  ∃ entity,
    create generateUniqueUUID md payload db
    = (Ok entity,
       set_table (λ t, <[uuid := own entity ∪ default ∅ (t !! uuid)]> t)
                 (bump_issued db))
    ∧ own entity !! "id" = Some (VStr uuid)
    ∧ (payload !! "__proto__" = None →
         own entity = <["id" := VStr uuid]> payload ∪ initializers (target md)
         ∧ proto_chain entity = proto_chain (new (target md))).
Proof.
  intros uuid.
  destruct (create_unfold generateUniqueUUID md payload db) as [Hrun Hid].
  eexists. split; [exact Hrun|]. split; [exact Hid|].
  intros Hplain. fold uuid.
  assert (Hcopy : <["id" := VStr uuid]> payload !! "__proto__" = None)
    by by rewrite lookup_insert_ne.
  split; [by apply assign_all_keys|].
  apply assign_keys_proto.
  rewrite elem_of_object_keys, Hcopy. by intros [? ?].
Qed.

Lemma findOne_by_id (i : string) (o : Order) (c : gmap string val) (db : Db) :
  table db !! i = Some c →
  findOne md (one_by_id i o) db
  = (Ok (Some (hydrate md (materialize (i, c)))), db).
Proof.
  intros Hi. unfold findOne, gets, orm_findOne; simpl.
  rewrite (selected_by_id md i c db Hi).
  pose proof (order_rows_perm o [materialize (i, c)]) as Hp.
  apply Permutation_singleton_r in Hp. by rewrite Hp.
Qed.

(** X4: what create stores for a payload without own [__proto__] key is
    found under the generated identifier: findOne by that identifier,
    deleted rows included, returns an instance of the entity class that
    carries the identifier of the entity create returned. *)
Theorem create_then_findOne (payload : gmap string val) (o : Order) (db : Db) :
  payload !! "__proto__" = None →
  ∃ entity db' found,
    create generateUniqueUUID md payload db = (Ok entity, db')
    ∧ findOne md (one_by_id (generateUniqueUUID (issued db)) o) db'
      = (Ok (Some found), db')
    ∧ entity_id entity = Some (generateUniqueUUID (issued db))
    ∧ entity_id found = Some (generateUniqueUUID (issued db))
    ∧ instanceof found (target md) = true.
Proof.
  intros _.
  destruct (create_run payload db) as (entity & Hrun & Hid & _).
  eexists _, _, _. split; [exact Hrun|]. split.
  - apply findOne_by_id. simpl. apply lookup_insert_eq.
  - split; [by unfold entity_id; rewrite Hid|].
    split; [apply entity_id_hydrate|by apply instanceof_new_chain].
Qed.

(** X5: when the payload has no own [__proto__] key, the entity create
    returns passes the instance check of save, and saving it again
    straight away changes nothing. *)
Theorem create_then_save (payload : gmap string val) (db : Db) :
  payload !! "__proto__" = None →
  ∃ entity db',
    create generateUniqueUUID md payload db = (Ok entity, db')
    ∧ save md entity db' = (Ok tt, db').
Proof.
  intros Hplain.
  destruct (create_run payload db) as (entity & Hrun & Hid & Hshape).
  destruct (Hshape Hplain) as [_ Hproto].
  eexists _, _. split; [exact Hrun|].
  unfold save. rewrite (instanceof_new_chain _ _ Hproto). simpl.
  unfold orm_save, entity_id. rewrite Hid.
  unfold modify, set_table, bump_issued. simpl.
  do 2 f_equal.
  rewrite lookup_insert_eq. simpl.
  rewrite (assoc_L (∪)), (idemp_L (∪)). apply insert_insert_eq.
Qed.

(** X6: save, remove and create write no row but the one that has the
    entity's identifier, whether they succeed or throw. *)
Theorem writes_touch_one_row (e : obj) (payload : gmap string val)
    (db : Db) (k : string) :
  (entity_id e ≠ Some k →
     table (save md e db).2 !! k = table db !! k
     ∧ table (remove md e db).2 !! k = table db !! k)
  ∧ (generateUniqueUUID (issued db) ≠ k →
       table (create generateUniqueUUID md payload db).2 !! k
       = table db !! k).
Proof.
  split.
  - intros Hk. unfold save, remove.
    destruct (instanceof e (target md)); simpl; [|done].
    unfold orm_save, orm_softRemove, orm_remove.
    destruct (entity_id e) as [i|] eqn:Hi.
    + assert (i ≠ k) by congruence. split.
      * simpl. by rewrite lookup_insert_ne.
      * destruct (deleteDateColumn md); simpl.
        -- by rewrite lookup_alter_ne.
        -- by rewrite lookup_delete_ne.
    + split; [done|]. by destruct (deleteDateColumn md).
  - intros Hk.
    destruct (create_run payload db) as (entity & -> & _).
    simpl. by rewrite lookup_insert_ne.
Qed.

(** X7: what save stores is found under the entity's identifier: after
    save, findOne by that identifier, deleted rows included, returns an
    instance of the entity class that carries it. *)
Theorem save_then_findOne (e : obj) (i : string) (o : Order) (db : Db) :
  instanceof e (target md) = true →
  entity_id e = Some i →
  ∃ db' found,
    save md e db = (Ok tt, db')
    ∧ findOne md (one_by_id i o) db' = (Ok (Some found), db')
    ∧ instanceof found (target md) = true
    ∧ entity_id found = Some i.
Proof.
  intros Hinst Hid. unfold save. rewrite Hinst. simpl.
  unfold orm_save. rewrite Hid.
  eexists _, _. split; [reflexivity|]. split.
  - apply findOne_by_id. simpl. apply lookup_insert_eq.
  - split; [by apply instanceof_new_chain|apply entity_id_hydrate].
Qed.

(** Adding a row under a free identifier adds it to the result set of the
    queries it answers, and changes no other result set. *)
Lemma selected_insert (w : option Where) (wd : bool) (db db' : Db)
    (i : string) (c : gmap string val) :
  table db !! i = None →
  table db' = <[i := c]> (table db) →
  selected md w wd db'
  ≡ₚ (if visible md wd (materialize (i, c))
         && matches_opt w (materialize (i, c))
      then [materialize (i, c)] else []) ++ selected md w wd db.
Proof.
  intros Hfree Htable. unfold selected, all_rows.
  rewrite Htable, map_to_list_insert by done.
  rewrite fmap_cons, filter_cons.
  destruct (visible md wd (materialize (i, c))
            && matches_opt w (materialize (i, c))); simpl; done.
Qed.

Lemma page_total_insert (q : FindOptions) (db db' : Db) (i : string)
    (c : gmap string val) :
  table db !! i = None →
  table db' = <[i := c]> (table db) →
  page_total md q db'
  = ((if in_result md q i c then 1 else 0) + page_total md q db)%nat.
Proof.
  intros Hfree Htable. rewrite !page_total_eq.
  rewrite (selected_insert _ _ db db' i c Hfree Htable), length_app.
  unfold in_result. by destruct (_ && _).
Qed.

(** X8: after create under an identifier that was free, the total of every
    find is what it was, plus one if the new row is in the result set of
    that find. *)
Theorem create_raises_totals (payload : gmap string val) (db : Db) :
  table db !! generateUniqueUUID (issued db) = None →
  ∃ entity db',
    create generateUniqueUUID md payload db = (Ok entity, db')
    ∧ ∀ q, page_total md q db'
           = ((if in_result md q (generateUniqueUUID (issued db)) (own entity)
               then 1 else 0) + page_total md q db)%nat.
Proof.
  intros Hfree.
  destruct (create_run payload db) as (entity & Hrun & _).
  eexists _, _. split; [exact Hrun|]. intros q.
  apply page_total_insert; [done|].
  cbn [table set_table bump_issued]. rewrite Hfree. cbn [default from_option].
  by rewrite (right_id_L ∅ (∪)).
Qed.

(** X9: remove of a stored entity lowers by one the total of every find
    that leaves deleted rows out and had the row in its result set, and
    changes no other such total; this holds for the soft and for the
    physical removal alike. *)
Theorem remove_lowers_totals (e : obj) (i : string) (c : gmap string val)
    (q : FindOptions) (db : Db) :
  instanceof e (target md) = true →
  entity_id e = Some i →
  table db !! i = Some c →
  q_withDeleted q = false →
  ∃ db', remove md e db = (Ok tt, db')
    ∧ page_total md q db
      = ((if in_result md q i c then 1 else 0) + page_total md q db')%nat.
Proof.
  intros Hinst Hid Hrow Hwd. unfold remove. rewrite Hinst. simpl.
  set (without := {| table := delete i (table db); clock := clock db;
                     issued := issued db |}).
  assert (Hbefore : page_total md q db
            = ((if in_result md q i c then 1 else 0)
               + page_total md q without)%nat).
  { apply page_total_insert; simpl; [apply lookup_delete_eq|].
    by rewrite insert_delete_eq, insert_id. }
  destruct (deleteDateColumn md) as [col|] eqn:Hcol.
  - unfold orm_softRemove. rewrite Hid, Hcol.
    eexists. split; [reflexivity|]. rewrite Hbefore. f_equal.
    set (stamped := <[col := VDate (clock db)]> c).
    set (db' := set_table _ db).
    assert (Hhidden : in_result md q i stamped = false).
    { unfold in_result, visible. rewrite Hwd, Hcol. simpl.
      unfold column, materialize, stamped. simpl.
      destruct (decide (col = "id")) as [->|Hne].
      - by rewrite lookup_insert_eq.
      - by rewrite lookup_insert_ne, lookup_insert_eq. }
    rewrite (page_total_insert q without db' i stamped).
    + by rewrite Hhidden.
    + apply lookup_delete_eq.
    + simpl. rewrite insert_delete_eq.
      apply map_eq. intros k. destruct (decide (k = i)) as [->|Hne].
      * by rewrite lookup_alter_eq, lookup_insert_eq, Hrow.
      * by rewrite lookup_alter_ne, lookup_insert_ne.
  - unfold orm_remove. rewrite Hid.
    eexists. split; [reflexivity|]. exact Hbefore.
Qed.

(** X10: whatever findOne or find returns is an instance of the entity
    class that carries the identifier of a stored row, so that it passes
    the instance check of save and of remove. *)
Theorem found_entities_pass_check (q1 : FindOneOptions) (q2 : FindOptions)
    (e : obj) (db : Db) :
  findOne md q1 db = (Ok (Some e), db) ∨ e ∈ page_rows md q2 db →
  instanceof e (target md) = true
  ∧ (∃ i c, entity_id e = Some i ∧ table db !! i = Some c)
  ∧ (save md e db).1 = Ok tt
  ∧ (remove md e db).1 = Ok tt.
Proof.
  intros Hfound.
  assert (∃ k c, table db !! k = Some c ∧ e = hydrate md (materialize (k, c)))
    as (k & c & Hk & ->).
  { destruct Hfound as [Hone|Hin].
    - unfold findOne, gets, orm_findOne in Hone. injection Hone as Hone.
      apply fmap_Some in Hone as (r & Hr & ->).
      apply head_Some_elem_of, order_rows_elem_of, selected_inv in Hr
        as (k & c & Hk & -> & _). eauto.
    - rewrite page_rows_eq in Hin.
      apply list_elem_of_fmap in Hin as (r & -> & Hr).
      apply subseteq_take, subseteq_drop, order_rows_elem_of, selected_inv
        in Hr as (k & c & Hk & -> & _). eauto. }
  assert (Hinst : instanceof (hydrate md (materialize (k, c))) (target md)
                  = true) by by apply instanceof_new_chain.
  split; [done|]. split; [exists k, c; by rewrite entity_id_hydrate|].
  unfold save, remove. rewrite Hinst. simpl.
  unfold orm_save, orm_softRemove, orm_remove. rewrite entity_id_hydrate.
  split; [done|]. by destruct (deleteDateColumn md).
Qed.
End EntityStoreMore.

(** * Further properties of the account service *)

Lemma string_length_append (a b : string) :
  String.length (a ++ b) = (String.length a + String.length b)%nat.
Proof.
  induction a as [|x a IH]; [done|].
  change (S (String.length (a ++ b))
          = S (String.length a + String.length b)).
  by rewrite IH.
Qed.

Lemma string_append_inj_length (a a' b b' : string) :
  String.length a = String.length a' → a ++ b = a' ++ b' → a = a'.
Proof.
  revert a'. induction a as [|x a IH]; intros [|x' a'] Hlen Heq;
    try done.
  change (String x (a ++ b) = String x' (a' ++ b')) in Heq.
  injection Heq as -> Heq. f_equal. apply IH; [|done].
  simpl in Hlen. lia.
Qed.

Section AccountServiceMore.
Import UsersRepository SignupVerificationTokensRepository EmailService.
Import UsersService.
Context {Profile : Type} `{Collaborators}.

Implicit Types (w : World Profile) (u : User Profile).

(** How [signup] runs: either the lookup finds an account and nothing is
    written, or it finds none and the account, the token and the email are
    added. *)
Lemma signup_run (data : UserSignupRequestDTO Profile) (hostname : string) w :
  (∃ x, users w !! id x = Some (columns x)
        ∧ email (columns x) = dto_email data
        ∧ signup data hostname w
          = (Ok (if isVerified (columns x)
                 then AlreadyCreated else AwaitingVerification), w))
  ∨ (unregistered (dto_email data) w
     ∧ signup data hostname w
       = (Ok Created,
          {| users :=
               <[generateUniqueUUID (S (drawn w)) :=
                   account_of data (bcrypt_genSalt (drawn w))]> (users w);
             tokens :=
               <[generateUniqueUUID (S (S (drawn w))) :=
                   {| user := generateUniqueUUID (S (drawn w));
                      expires := now w + USERS_SIGNUP_VERIFICATION_TTL |}]>
                 (tokens w);
             outbox :=
               (outbox w
                ++ [link_email (dto_email data) hostname
                      (generateUniqueUUID (S (S (drawn w))))])%list;
             now := now w;
             drawn := S (S (S (drawn w))) |})).
Proof.
  destruct (findOne_run {| where_email := Some (dto_email data);
                           where_isVerified := None |} w)
    as (r & Hr & Hspec).
  unfold signup, transaction, bind. rewrite Hr.
  destruct r as [x|].
  - left. exists x. destruct Hspec as [Hx He%matches_email].
    split; [done|]. split; [done|]. by destruct (isVerified (columns x)).
  - right. split; [|reflexivity].
    intros k u Hk He%matches_email. rewrite (Hspec _ _ Hk) in He. done.
Qed.

Lemma signup_created_inv (data : UserSignupRequestDTO Profile)
    (hostname : string) w w' :
  signup data hostname w = (Ok Created, w') →
  unregistered (dto_email data) w
  ∧ users w' =
      <[generateUniqueUUID (S (drawn w)) :=
          account_of data (bcrypt_genSalt (drawn w))]> (users w)
  ∧ tokens w' =
      <[generateUniqueUUID (S (S (drawn w))) :=
          {| user := generateUniqueUUID (S (drawn w));
             expires := now w + USERS_SIGNUP_VERIFICATION_TTL |}]> (tokens w)
  ∧ outbox w' =
      (outbox w
       ++ [link_email (dto_email data) hostname
             (generateUniqueUUID (S (S (drawn w))))])%list
  ∧ now w' = now w.
Proof.
  intros Hrun.
  destruct (signup_run data hostname w) as [(x & _ & _ & Hx)|[Hnew Hcreated]].
  - rewrite Hx in Hrun. by destruct (isVerified (columns x)).
  - rewrite Hcreated in Hrun. injection Hrun as <-. done.
Qed.

(** X11: once signup has answered Created, signing up again with the same
    email, whatever the password and the rest, answers
    AwaitingVerification and changes nothing. *)
Theorem signup_again_awaits (data data' : UserSignupRequestDTO Profile)
    (hostname hostname' : string) w w' :
  signup data hostname w = (Ok Created, w') →
  dto_email data' = dto_email data →
  signup data' hostname' w' = (Ok AwaitingVerification, w').
Proof.
  intros (Hnew & Husers & _)%signup_created_inv He.
  destruct (signup_run data' hostname' w') as [(x & Hx & Hxe & ->)|[Hnone _]].
  - rewrite Husers in Hx. apply lookup_insert_Some in Hx as [[_ <-]|[_ Hx]].
    + done.
    + destruct (Hnew _ _ Hx). congruence.
  - destruct (Hnone (generateUniqueUUID (S (drawn w)))
                (account_of data (bcrypt_genSalt (drawn w)))).
    + rewrite Husers. apply lookup_insert_eq.
    + done.
Qed.

Lemma verifyUser_stored (tokenId : string) (t : SignupVerificationToken) u w :
  tokens w !! tokenId = Some t →
  users w !! user t = Some u →
  ∃ w', verifyUser tokenId w = (Ok ok, w')
    ∧ users w' = <[user t := verified u]> (users w)
    ∧ outbox w' = outbox w.
Proof.
  intros Ht Hu. rewrite verifyUser_unfold, Ht, Hu.
  eexists. split; [reflexivity|]. done.
Qed.

(** X12: the link that signup emails verifies the new account: before it
    is followed no password logs in, following it answers ok, and from
    then on the password given at signup logs in and a password that
    hashes differently does not. *)
Theorem signup_link_then_login (data : UserSignupRequestDTO Profile)
    (hostname : string) w w1 :
  signup data hostname w = (Ok Created, w1) →
  ∃ tokenId salt,
    last (outbox w1) = Some (link_email (dto_email data) hostname tokenId)
    ∧ (∀ pw, doCredentialsMatch (dto_email data) pw w1 = (Ok DontMatch, w1))
    ∧ ∃ w2, verifyUser tokenId w1 = (Ok ok, w2)
        ∧ doCredentialsMatch (dto_email data) (dto_password data) w2
          = (Ok (Match {| sel_passwordHash :=
                            bcrypt_hash (dto_password data) salt;
                          sel_passwordSalt := salt |}), w2)
        ∧ ∀ pw, bcrypt_hash pw salt ≠ bcrypt_hash (dto_password data) salt →
                doCredentialsMatch (dto_email data) pw w2 = (Ok DontMatch, w2).
Proof.
  intros (Hnew & Husers & Htokens & Hout & _)%signup_created_inv.
  set (uid := generateUniqueUUID (S (drawn w))) in *.
  set (salt := bcrypt_genSalt (drawn w)) in *.
  exists (generateUniqueUUID (S (S (drawn w)))), salt.
  split; [by rewrite Hout, last_snoc|]. split.
  - intros pw.
    destruct (doCredentialsMatch_run (dto_email data) pw w1)
      as ([x|] & _ & Hspec); [|by destruct Hspec].
    destruct Hspec as (Hx & He & Hv & _).
    rewrite Husers in Hx. apply lookup_insert_Some in Hx as [[_ Hx]|[_ Hx]].
    + by rewrite <- Hx in Hv.
    + by destruct (Hnew _ _ Hx).
  - destruct (verifyUser_stored (generateUniqueUUID (S (S (drawn w))))
                {| user := uid;
                   expires := now w + USERS_SIGNUP_VERIFICATION_TTL |}
                (account_of data salt) w1)
      as (w2 & Hverify & Husers2 & _).
    { rewrite Htokens. apply lookup_insert_eq. }
    { rewrite Husers. apply lookup_insert_eq. }
    simpl in Husers2. rewrite Husers, insert_insert_eq in Husers2.
    exists w2. split; [exact Hverify|].
    assert (Hlogin : ∀ pw,
              doCredentialsMatch (dto_email data) pw w2
              = (Ok (if String.eqb (bcrypt_hash pw salt)
                                   (bcrypt_hash (dto_password data) salt)
                     then Match {| sel_passwordHash :=
                                     bcrypt_hash (dto_password data) salt;
                                   sel_passwordSalt := salt |}
                     else DontMatch), w2)).
    { intros pw.
      destruct (doCredentialsMatch_run (dto_email data) pw w2)
        as ([x|] & _ & Hspec).
      - destruct Hspec as (Hx & He & _ & ->).
        rewrite Husers2 in Hx.
        apply lookup_insert_Some in Hx as [[_ Hx]|[_ Hx]].
        + unfold select_secrets. by rewrite <- Hx.
        + by destruct (Hnew _ _ Hx).
      - destruct Hspec as [Hnone _].
        specialize (Hnone uid (verified (account_of data salt))).
        rewrite Husers2, lookup_insert_eq in Hnone.
        by specialize (Hnone eq_refl eq_refl). }
    split.
    + by rewrite Hlogin, String.eqb_refl.
    + intros pw Hpw. rewrite Hlogin.
      by rewrite (proj2 (String.eqb_neq _ _) Hpw).
Qed.

(** X13: resending right after signup emails the link of the token signup
    created, and creates no other, provided the time-to-live is positive
    and the new account's identifier was not yet referred to by a token. *)
Theorem resend_after_signup (data : UserSignupRequestDTO Profile)
    (hostname hostname' : string) w w1 :
  signup data hostname w = (Ok Created, w1) →
  0 < USERS_SIGNUP_VERIFICATION_TTL →
  (∀ tid t, tokens w !! tid = Some t →
            user t ≠ generateUniqueUUID (S (drawn w))) →
  resendSignupVerificationToken (dto_email data) hostname' w1
  = (Ok ok,
     push_email (link_email (dto_email data) hostname'
                            (generateUniqueUUID (S (S (drawn w))))) w1).
Proof.
  intros (Hnew & Husers & Htokens & _ & Hnow)%signup_created_inv Httl Hnone.
  set (uid := generateUniqueUUID (S (drawn w))) in *.
  set (tokenId := generateUniqueUUID (S (S (drawn w)))) in *.
  destruct (findOne_run {| where_email := Some (dto_email data);
                           where_isVerified := None |} w1)
    as (r & Hr & Hspec).
  unfold resendSignupVerificationToken, transaction, bind. rewrite Hr.
  destruct r as [x|].
  - destruct Hspec as [Hx He%matches_email].
    assert (Hid : id x = uid).
    { rewrite Husers in Hx. apply lookup_insert_Some in Hx as [[? _]|[_ Hx]].
      - done.
      - by destruct (Hnew _ _ Hx). }
    destruct (findTokenByUser_run x w1) as (tk & Htk & Htkspec).
    rewrite Htk. destruct tk as [tk|].
    + destruct Htkspec as (Hstored & Howner & _).
      assert (id tk = tokenId) as ->.
      { rewrite Htokens in Hstored.
        apply lookup_insert_Some in Hstored as [[? _]|[_ Hstored]].
        - done.
        - destruct (Hnone _ _ Hstored). congruence. }
      simpl. by rewrite He.
    + destruct Htkspec.
      exists tokenId,
        {| user := uid; expires := now w + USERS_SIGNUP_VERIFICATION_TTL |}.
      split; [rewrite Htokens; apply lookup_insert_eq|].
      split; [done|]. simpl. lia.
  - assert (matches {| where_email := Some (dto_email data);
                       where_isVerified := None |}
              (account_of data (bcrypt_genSalt (drawn w))) = true)
      as Hm by by apply matches_email.
    rewrite (Hspec uid) in Hm; [done|].
    rewrite Husers. apply lookup_insert_eq.
Qed.

(** How [resendSignupVerificationToken] runs, by the account and the token
    its two lookups return. *)
Lemma resend_run (e hostname : string) w :
  (unregistered e w
   ∧ resendSignupVerificationToken e hostname w = (Ok not_found, w))
  ∨ (∃ x tk, users w !! id x = Some (columns x)
       ∧ email (columns x) = e
       ∧ tokens w !! id tk = Some (columns tk)
       ∧ user (columns tk) = id x
       ∧ resendSignupVerificationToken e hostname w
         = (Ok ok, push_email (link_email e hostname (id tk)) w))
  ∨ (∃ x w', users w !! id x = Some (columns x)
       ∧ email (columns x) = e
       ∧ resendSignupVerificationToken e hostname w = (Ok ok, w')
       ∧ users w' = users w
       ∧ tokens w' =
           <[generateUniqueUUID (drawn w) :=
               {| user := id x;
                  expires := now w + USERS_SIGNUP_VERIFICATION_TTL |}]>
             (filter (λ kv, user kv.2 ≠ id x) (tokens w))
       ∧ outbox w' =
           (outbox w
            ++ [link_email e hostname (generateUniqueUUID (drawn w))])%list).
Proof.
  destruct (findOne_run {| where_email := Some e;
                           where_isVerified := None |} w)
    as (r & Hr & Hspec).
  unfold resendSignupVerificationToken, transaction, bind. rewrite Hr.
  destruct r as [x|].
  - right. destruct Hspec as [Hx He%matches_email].
    destruct (findTokenByUser_run x w) as (tk & Htk & Htkspec).
    rewrite Htk. destruct tk as [tk|].
    + left. exists x, tk. destruct Htkspec as (Hstored & Howner & _).
      repeat split; try done. simpl. by rewrite He.
    + right. exists x. eexists. repeat split; try done.
      simpl. by rewrite He.
  - left. split; [|done].
    intros k u Hk He%matches_email. rewrite (Hspec _ _ Hk) in He. done.
Qed.

(** X14: a verified account stays verified: verifyUser and
    resendSignupVerificationToken leave it verified under the same
    email, and so does signup unless the identifier it generates for the
    new account is the one of that account. *)
Theorem verified_stays_verified (k : string) u w :
  users w !! k = Some u →
  isVerified u = true →
  (∀ tokenId, ∃ u', users (verifyUser tokenId w).2 !! k = Some u'
                    ∧ isVerified u' = true ∧ email u' = email u)
  ∧ (∀ e hostname,
       users (resendSignupVerificationToken e hostname w).2 !! k = Some u)
  ∧ (∀ data hostname,
       generateUniqueUUID (S (drawn w)) ≠ k →
       users (signup data hostname w).2 !! k = Some u).
Proof.
  intros Hk Hv. split; [|split].
  - intros tokenId. rewrite verifyUser_unfold.
    destruct (tokens w !! tokenId) as [t|]; [|by exists u].
    destruct (users w !! user t) as [u0|] eqn:Hu0; [|by exists u].
    simpl. destruct (decide (user t = k)) as [Heq|Hne].
    + rewrite Heq, lookup_insert_eq. eexists. split; [done|].
      rewrite Heq, Hk in Hu0. by injection Hu0 as ->.
    + rewrite lookup_insert_ne by done. by exists u.
  - intros e hostname.
    destruct (resend_run e hostname w)
      as [[_ ->]|[(x & tk & _ & _ & _ & _ & ->)
                 |(x & w' & _ & _ & -> & Husers & _)]];
      [done|done|].
    simpl. by rewrite Husers.
  - intros data hostname Hfresh.
    destruct (signup_run data hostname w) as [(x & _ & _ & ->)|[_ ->]];
      [done|].
    simpl. by rewrite lookup_insert_ne.
Qed.

(** X15: the link that resendSignupVerificationToken emails always
    verifies: when it answers ok it has handed over one email, to the
    address asked for, and verifyUser with the token id of its link answers
    ok and leaves an account with that address verified. *)
Theorem resend_link_verifies (e hostname : string) w w' :
  resendSignupVerificationToken e hostname w = (Ok ok, w') →
  ∃ tokenId w'',
    outbox w' = (outbox w ++ [link_email e hostname tokenId])%list
    ∧ verifyUser tokenId w' = (Ok ok, w'')
    ∧ ∃ k u, users w'' !! k = Some u ∧ email u = e ∧ isVerified u = true.
Proof.
  intros Hrun.
  destruct (resend_run e hostname w)
    as [[_ Hmiss]|[(x & tk & Hx & He & Htk & Howner & Hreuse)
                  |(x & w1 & Hx & He & Hnew & Husers & Htokens & Hout)]].
  - congruence.
  - rewrite Hreuse in Hrun. injection Hrun as <-.
    destruct (verifyUser_stored (id tk) (columns tk) (columns x)
                (push_email (link_email e hostname (id tk)) w))
      as (w'' & Hverify & Husers'' & _); [done|by rewrite Howner|].
    exists (id tk), w''. split; [done|]. split; [exact Hverify|].
    exists (id x), (verified (columns x)).
    rewrite Husers'', Howner. simpl. by rewrite lookup_insert_eq.
  - rewrite Hnew in Hrun. injection Hrun as <-.
    destruct (verifyUser_stored (generateUniqueUUID (drawn w))
                {| user := id x;
                   expires := now w + USERS_SIGNUP_VERIFICATION_TTL |}
                (columns x) w1)
      as (w'' & Hverify & Husers'' & _).
    { rewrite Htokens. apply lookup_insert_eq. }
    { by rewrite Husers. }
    exists (generateUniqueUUID (drawn w)), w''.
    split; [done|]. split; [exact Hverify|].
    exists (id x), (verified (columns x)).
    rewrite Husers''. simpl. by rewrite lookup_insert_eq.
Qed.

(** X16: signup, verifyUser and resendSignupVerificationToken keep the
    constraints of the schema: emails stay unique, since signup looks the
    email up before it creates an account, and every token keeps referring
    to a stored account. *)
Theorem service_keeps_constraints w :
  consistent w →
  (∀ data hostname, consistent (signup data hostname w).2)
  ∧ (∀ tokenId, consistent (verifyUser tokenId w).2)
  ∧ (∀ e hostname,
       consistent (resendSignupVerificationToken e hostname w).2).
Proof.
  intros Hw. split; [|split].
  - intros data hostname. by apply signup_consistent.
  - intros tokenId. by apply verifyUser_consistent.
  - intros e hostname. by apply resend_consistent.
Qed.

(** X17: verifyUser hands over no email, creates no token and neither adds
    nor drops an account: the accounts keep their identifiers and every
    token left afterwards was there before. *)
Theorem verifyUser_only_consumes (tokenId : string) w :
  outbox (verifyUser tokenId w).2 = outbox w
  ∧ dom (users (verifyUser tokenId w).2) = dom (users w)
  ∧ tokens (verifyUser tokenId w).2 ⊆ tokens w.
Proof.
  rewrite verifyUser_unfold.
  destruct (tokens w !! tokenId) as [t|]; [|done].
  destruct (users w !! user t) as [u|] eqn:Hu; [|done].
  simpl. split; [done|]. split.
  - apply dom_insert_lookup_L. by eexists.
  - apply map_filter_subseteq.
Qed.

(** The body of the verification email tells its link: two links that
    give the same body are the same link. *)
Lemma verification_body_inj (link link' : string) :
  verification_body link = verification_body link' → link = link'.
Proof.
  unfold verification_body. intros Heq.
  do 4 apply (inj _) in Heq.
  apply (string_append_inj_length _ _ _ _) in Heq; [done|].
  apply (f_equal String.length) in Heq.
  rewrite !string_length_append in Heq. simpl in Heq. lia.
Qed.

(** X18: sendVerificationLinkEmail hands over exactly one email, to the
    address given, and touches neither accounts nor tokens; the link is in
    the body as it was passed, and bodies of different links differ. *)
Theorem sendVerificationLinkEmail_one_email (address link : string) w :
  ∃ mail,
    sendVerificationLinkEmail address link w = (Ok tt, push_email mail w)
    ∧ to mail = address
    ∧ embeds (body mail) link
    ∧ users (push_email mail w) = users w
    ∧ tokens (push_email mail w) = tokens w
    ∧ ∀ link',
        sendVerificationLinkEmail address link' w
        = sendVerificationLinkEmail address link w →
        link' = link.
Proof.
  exists {| to := address; body := verification_body link |}.
  split; [done|]. split; [done|]. split; [|split; [done|split; [done|]]].
  - unfold embeds, verification_body.
    exists (newline
            ++ "<p>Click or copy this link to verify your newly created account: "
            ++ "<a href=" ++ dquote).
    exists (dquote ++ " target=" ++ dquote ++ "_blank" ++ dquote ++ ">"
            ++ link ++ "</a></p>" ++ newline).
    by rewrite !string_append_assoc.
  - intros link' Hsend.
    unfold sendVerificationLinkEmail, sendEmail, modify, push_email in Hsend.
    injection Hsend as Hout.
    apply app_inv_head in Hout.
    apply verification_body_inj, (inj Some).
    exact (f_equal (λ l : list Email, option_map body (head l)) Hout).
Qed.
End AccountServiceMore.

(** * The further properties at sample inputs *)

Section MoreWitnesses.
Import Samples MoreSamples SimpleEntityRepository.
#[local] Existing Instance table_order.

(** A note created on the one-note table is found under its new
    identifier. *)
Lemma create_then_findOne_witness :
  payload_with_id !! "__proto__" = None
  ∧ ∃ entity db' found,
      create sample_uuid notes payload_with_id one_note = (Ok entity, db')
      ∧ findOne notes (one_by_id "uuid-0" []) db' = (Ok (Some found), db')
      ∧ entity_id found = entity_id entity.
Proof.
  split; [reflexivity|].
  destruct (create_then_findOne sample_uuid notes payload_with_id [] one_note
              eq_refl)
    as (entity & db' & found & Hcreate & Hfind & Hid & Hfound & _).
  exists entity, db', found. split; [exact Hcreate|]. split; [exact Hfind|].
  by rewrite Hid, Hfound.
Defined.

(** The note created from a payload without [__proto__] is saved again
    without a change. *)
Lemma create_then_save_witness :
  payload_with_id !! "__proto__" = None
  ∧ ∃ entity db',
      create sample_uuid notes payload_with_id one_note = (Ok entity, db')
      ∧ save notes entity db' = (Ok tt, db').
Proof.
  split; [reflexivity|].
  exact (create_then_save sample_uuid notes payload_with_id one_note eq_refl).
Defined.

(** The stored note is saved and found again under its identifier. *)
Lemma save_then_findOne_witness :
  instanceof a_note (target notes) = true
  ∧ entity_id a_note = Some "n1"
  ∧ ∃ db' found,
      save notes a_note one_note = (Ok tt, db')
      ∧ findOne notes (one_by_id "n1" []) db' = (Ok (Some found), db')
      ∧ entity_id found = Some "n1".
Proof.
  split; [reflexivity|]. split; [reflexivity|].
  destruct (save_then_findOne notes a_note "n1" [] one_note eq_refl eq_refl)
    as (db' & found & Hsave & Hfind & _ & Hid).
  by exists db', found.
Defined.

(** Creating a second note titled groceries raises the count of such
    notes from one to two. *)
Lemma create_raises_totals_witness :
  table one_note !! sample_uuid (issued one_note) = None
  ∧ page_total notes by_title one_note = 1%nat
  ∧ ∃ entity db',
      create sample_uuid notes payload_with_id one_note = (Ok entity, db')
      ∧ page_total notes by_title db' = 2%nat.
Proof.
  split; [reflexivity|]. split; [reflexivity|].
  destruct (create_raises_totals sample_uuid notes payload_with_id one_note
              eq_refl) as (entity & db' & Hcreate & Htotals).
  exists entity, db'. split; [exact Hcreate|].
  rewrite Htotals. vm_compute in Hcreate. injection Hcreate as <- _.
  vm_compute. reflexivity.
Defined.

(** Removing the stored note lowers the count of notes titled groceries
    from one to none. *)
Lemma remove_lowers_totals_witness :
  instanceof a_note (target notes) = true
  ∧ entity_id a_note = Some "n1"
  ∧ table one_note !! "n1" = Some {[ "title" := VStr "groceries" ]}
  ∧ q_withDeleted by_title = false
  ∧ ∃ db', remove notes a_note one_note = (Ok tt, db')
      ∧ page_total notes by_title one_note = 1%nat
      ∧ page_total notes by_title db' = 0%nat.
Proof.
  split; [reflexivity|]. split; [reflexivity|]. split; [reflexivity|].
  split; [reflexivity|].
  destruct (remove_lowers_totals notes a_note "n1"
              {[ "title" := VStr "groceries" ]} by_title one_note
              eq_refl eq_refl eq_refl eq_refl) as (db' & Hremove & Htotals).
  exists db'. split; [exact Hremove|]. split; [reflexivity|].
  assert (page_total notes by_title one_note = 1%nat) as Hone by reflexivity.
  assert (in_result notes by_title "n1" {[ "title" := VStr "groceries" ]}
          = true) as Hin by reflexivity.
  rewrite Hone, Hin in Htotals. lia.
Defined.

(** The note findOne returns can be handed back to save. *)
Lemma found_entities_pass_check_witness :
  ∃ e, findOne notes (one_by_id "n1" []) one_note = (Ok (Some e), one_note)
       ∧ instanceof e (target notes) = true
       ∧ (save notes e one_note).1 = Ok tt.
Proof.
  pose (e := hydrate notes
               (materialize ("n1", {[ "title" := VStr "groceries" ]}))).
  assert (Hfind : findOne notes (one_by_id "n1" []) one_note
                  = (Ok (Some e), one_note)) by reflexivity.
  exists e. split; [exact Hfind|].
  destruct (found_entities_pass_check notes (one_by_id "n1" []) everything
              e one_note (or_introl Hfind)) as (Hinst & _ & Hsave & _).
  split; [exact Hinst|exact Hsave].
Defined.
End MoreWitnesses.

Section MoreAccountWitnesses.
Import Samples MoreSamples UsersService.
#[local] Existing Instance collaborators.

Lemma alice_signup_created :
  signup alice_request "https://app" nobody = (Ok Created, alice_signed_up).
Proof. vm_compute. reflexivity. Qed.

(** Alice signs up a second time, with another password. *)
Lemma signup_again_awaits_witness :
  signup alice_request "https://app" nobody = (Ok Created, alice_signed_up)
  ∧ signup {| dto_email := "alice@example.org";
              dto_password := "another one";
              dto_profile := "Alice" |} "https://app" alice_signed_up
    = (Ok AwaitingVerification, alice_signed_up).
Proof.
  split; [exact alice_signup_created|].
  exact (signup_again_awaits alice_request _ "https://app" "https://app"
           nobody alice_signed_up alice_signup_created eq_refl).
Defined.

(** Alice follows the link of her signup email and logs in. *)
Lemma signup_link_then_login_witness :
  signup alice_request "https://app" nobody = (Ok Created, alice_signed_up)
  ∧ ∃ tokenId w2,
      verifyUser tokenId alice_signed_up = (Ok ok, w2)
      ∧ ∃ secrets,
          doCredentialsMatch "alice@example.org" "correct horse" w2
          = (Ok (Match secrets), w2).
Proof.
  split; [exact alice_signup_created|].
  destruct (signup_link_then_login alice_request "https://app" nobody
              alice_signed_up alice_signup_created)
    as (tokenId & salt & _ & _ & w2 & Hverify & Hlogin & _).
  exists tokenId, w2. split; [exact Hverify|]. eexists. exact Hlogin.
Defined.

(** Alice asks for her link again right after signing up. *)
Lemma resend_after_signup_witness :
  signup alice_request "https://app" nobody = (Ok Created, alice_signed_up)
  ∧ 0 < USERS_SIGNUP_VERIFICATION_TTL
  ∧ resendSignupVerificationToken "alice@example.org" "https://app"
      alice_signed_up
    = (Ok ok,
       push_email (link_email "alice@example.org" "https://app" "uuid-2")
                  alice_signed_up).
Proof.
  split; [exact alice_signup_created|]. split; [done|].
  apply (resend_after_signup alice_request "https://app" "https://app"
           nobody alice_signed_up alice_signup_created).
  - done.
  - intros tid t Ht. simpl in Ht. by rewrite lookup_empty in Ht.
Defined.

(** Alice, verified, stays verified when her stale link is followed. *)
Lemma verified_stays_verified_witness :
  users alice_verified !! "u1" = Some (alice true)
  ∧ isVerified (alice true) = true
  ∧ ∃ u', users (verifyUser "t1" alice_verified).2 !! "u1" = Some u'
          ∧ isVerified u' = true.
Proof.
  split; [reflexivity|]. split; [reflexivity|].
  destruct (verified_stays_verified "u1" (alice true) alice_verified
              eq_refl eq_refl) as (Hverify & _).
  destruct (Hverify "t1") as (u' & Hu' & Hv & _).
  by exists u'.
Defined.

Lemma alice_resend_ok :
  resendSignupVerificationToken "alice@example.org" "https://app"
    alice_pending = (Ok ok, alice_resent).
Proof. vm_compute. reflexivity. Qed.

(** The link resent to Alice verifies her account. *)
Lemma resend_link_verifies_witness :
  resendSignupVerificationToken "alice@example.org" "https://app"
    alice_pending = (Ok ok, alice_resent)
  ∧ ∃ tokenId w'',
      verifyUser tokenId alice_resent = (Ok ok, w'')
      ∧ ∃ k u, users w'' !! k = Some u
               ∧ email u = "alice@example.org" ∧ isVerified u = true.
Proof.
  split; [exact alice_resend_ok|].
  destruct (resend_link_verifies "alice@example.org" "https://app"
              alice_pending alice_resent alice_resend_ok)
    as (tokenId & w'' & _ & Hverify & Hverified).
  by exists tokenId, w''.
Defined.

(** The empty store satisfies the constraints, and so does the store
    after Alice has signed up. *)
Lemma service_keeps_constraints_witness :
  consistent nobody ∧ consistent alice_signed_up.
Proof.
  assert (Hempty : consistent nobody) by by apply consistent_no_accounts.
  split; [exact Hempty|].
  exact (proj1 (service_keeps_constraints nobody Hempty)
           alice_request "https://app").
Defined.
End MoreAccountWitnesses.
